(** * EBU STL (EBU Tech 3264) subtitles: demuxer and decoder

    A shallow embedding of [libavformat/ebustldec.c] (format probe and
    timecode conversion) and [libavcodec/ebustldec.c] (ISO 6937 transcoder,
    colour scan, markup assembly and the per-packet decode loop), followed
    by the properties of the decoding pipeline.

    Conventions.  A [uint8_t] or [unsigned char] is a [Z] in [0, 256); an
    [int] or [int64_t] is a [Z] with its wrap-around written out.  A C
    string is the list of its bytes without the terminating NUL; string
    literals of the source are written as Rocq strings and turned into bytes
    by [cstr].  A heap buffer obtained from [malloc] is a finite map from
    byte offsets to the bytes stored there, so that the offsets a function
    writes can be compared with the size it asked for.  Allocation is
    assumed to succeed. *)

From Stdlib Require Import ZArith String Ascii List Lia DecimalString.
From stdpp Require Import base numbers option list gmap sets.

Open Scope Z_scope.

(** ** C data *)

Module C.

Definition cstring := list Z.

Definition is_uint8 (b : Z) : Prop := 0 <= b < 256.

(** [int] and [int64_t] results, reduced to their range. *)
Definition wrap_int (z : Z) : Z := (z + 2 ^ 31) mod 2 ^ 32 - 2 ^ 31.
Definition wrap_int64 (z : Z) : Z := (z + 2 ^ 63) mod 2 ^ 64 - 2 ^ 63.

Definition byte_of_ascii (c : ascii) : Z := Z.of_N (N_of_ascii c).

(** The bytes of a string literal. *)
Fixpoint cstr (s : string) : cstring :=
  match s with
  | EmptyString => []
  | String c s' => byte_of_ascii c :: cstr s'
  end.

(** Conversion of an [unsigned char] argument to a [char] parameter
    (signed, as on x86 and most ABIs). *)
Definition char_of_uchar (b : Z) : Z := if b <? 128 then b else b - 256.

(** The array cell [p[i]]. *)
Definition byte_at (p : list Z) (i : nat) : Z := nth i p 0.

(** [%s] of a [char *] that may be [NULL] (glibc prints [(null)]). *)
Definition fmt_s (s : option cstring) : cstring :=
  match s with
  | Some bytes => bytes
  | None => cstr "(null)"
  end.

(** [%d] of an [int]. *)
Definition fmt_d (n : Z) : cstring :=
  cstr (NilZero.string_of_int (Z.to_int n)).

(** The NUL-terminated string that starts at offset [k] of a buffer; the
    scan visits at most [fuel] cells. *)
Fixpoint read_cstring (mem : gmap nat Z) (k fuel : nat) : cstring :=
  match fuel with
  | O => []
  | S fuel' =>
      match mem !! k with
      | Some c => if c =? 0 then [] else c :: read_cstring mem (S k) fuel'
      | None => []
      end
  end.

(** The string a buffer holds at its start. *)
Definition c_string (mem : gmap nat Z) : cstring :=
  read_cstring mem 0 (size mem).

(** All the bytes stored in a buffer, by increasing offset, for a buffer
    written from offset 0 on without gaps. *)
Definition contents (mem : gmap nat Z) : list Z :=
  (fun k => default 0 (mem !! k)) <$> seq 0 (size mem).

(** [memcpy(&mem[j], src, strlen(src))]. *)
Fixpoint memcpy (mem : gmap nat Z) (j : nat) (src : cstring) : gmap nat Z :=
  match src with
  | [] => mem
  | c :: src' => memcpy (<[j := c]> mem) (S j) src'
  end.

(** A write stays inside an allocation of [size] bytes. *)
Definition within (size : nat) (mem : gmap nat Z) : Prop :=
  forall k : nat, k ∈ dom mem -> (k < size)%nat.

End C.

Import C.

(** ** libavformat/ebustldec.c *)

Module Avformat.

Definition EBU_HEADER_SIZE : Z := 1024.
Definition TTI_BLOCK_SIZE : Z := 128.

(** [AVProbeData]: [buf] is the memory behind the pointer, which may hold
    more than the [buf_size] bytes of the file that were read. *)
Record AVProbeData := { buf : list Z; buf_size : Z }.

(** A computation that reads the probe buffer and records, in order, the
    offsets it reads. *)
Definition Rd (A : Type) : Type := list Z -> A * list nat.

Definition ret {A} (a : A) : Rd A := fun _ => (a, []).

Definition bind {A B} (m : Rd A) (f : A -> Rd B) : Rd B :=
  fun mem =>
    let '(a, t1) := m mem in
    let '(b, t2) := f a mem in
    (b, t1 ++ t2).

Definition rd (i : nat) : Rd Z := fun mem => (byte_at mem i, [i]).

(** [a && b]: [b] is evaluated only when [a] holds. *)
Definition and_then (a b : Rd bool) : Rd bool :=
  bind a (fun x => if x then b else ret false).

Definition rd_eq (i : nat) (c : ascii) : Rd bool :=
  bind (rd i) (fun v => ret (v =? byte_of_ascii c)).

Section Probe.

(** [AVPROBE_SCORE_MAX] is declared in libavformat/avformat.h. *)
Variable AVPROBE_SCORE_MAX : Z.

Definition ebustl_probe (p : AVProbeData) : Z * list nat :=
  if buf_size p <? 5 then (0, [])
  else
    bind (and_then (and_then (rd_eq 3 "S") (rd_eq 4 "T")) (rd_eq 5 "L"))
         (fun matched => ret (if matched then AVPROBE_SCORE_MAX else 0))
         (buf p).

End Probe.

(** [timecode] is the memory from the pointer on. *)
Definition ebustl_timestamp_to_pts (timecode : list Z) : Z :=
  let hours := byte_at timecode 0 in
  let minutes := byte_at timecode 1 in
  let seconds := byte_at timecode 2 in
  let frames := byte_at timecode 3 in
  wrap_int64
    (wrap_int64
       (wrap_int64
          (wrap_int64 (wrap_int64 (wrap_int (hours - 10) * 3600)
                       + wrap_int64 (minutes * 60))
           + seconds)
        * 1000)
     + wrap_int (frames * wrap_int (Z.quot 1000 25))).

End Avformat.

(** ** libavcodec/ebustldec.c *)

Module Avcodec.

Definition TTI_TEXT_FIELD_OFFSET : nat := 16.
Definition TTI_TEXT_FIELD_LENGTH : nat := 112.
Definition TTI_BLOCK_SIZE : Z := 128.

(** *** ISO 6937 to UTF-8 *)

(** The inner [switch (base)] of each diacritic: the ten vowels, in the
    order of the source, with the UTF-8 literal each one returns. *)
Definition switch_base (base : Z)
    (A E I O U a e i o u : string) : option cstring :=
  match base with
  | 65 (* 'A' *) => Some (cstr A)
  | 69 (* 'E' *) => Some (cstr E)
  | 73 (* 'I' *) => Some (cstr I)
  | 79 (* 'O' *) => Some (cstr O)
  | 85 (* 'U' *) => Some (cstr U)
  | 97 (* 'a' *) => Some (cstr a)
  | 101 (* 'e' *) => Some (cstr e)
  | 105 (* 'i' *) => Some (cstr i)
  | 111 (* 'o' *) => Some (cstr o)
  | 117 (* 'u' *) => Some (cstr u)
  | _ => None
  end.

(** [None] is the [NULL] returned when no mapping is found. *)
Definition map_iso6937_to_utf8 (diacritic : Z) (base : Z) : option cstring :=
  match diacritic with
  | 0xC1 => switch_base base "À" "È" "Ì" "Ò" "Ù" "à" "è" "ì" "ò" "ù"
  | 0xC2 => switch_base base "Á" "É" "Í" "Ó" "Ú" "á" "é" "í" "ó" "ú"
  | 0xC3 => switch_base base "Â" "Ê" "Î" "Ô" "Û" "â" "ê" "î" "ô" "û"
  | 0xC8 => switch_base base "Ä" "Ë" "Ï" "Ö" "Ü" "ä" "ë" "ï" "ö" "ü"
  | _ => None
  end.

(** The body of the [for] loop of [convert_iso6937_to_utf8], on the bytes
    [input[i..length)] still to read, the write offset [j] and the output
    buffer.  Reading [input[i + 1]] needs a second byte ([i + 1 < length]);
    a mapped pair advances [i] twice. *)
Fixpoint convert_loop (rest : list Z) (j : nat) (output : gmap nat Z)
    : nat * gmap nat Z :=
  match rest with
  | [] => (j, output)
  | diacritic :: rest1 =>
      let literal := convert_loop rest1 (S j) (<[j := diacritic]> output) in
      if (0xC1 <=? diacritic) && (diacritic <=? 0xCF) then
        match rest1 with
        | next :: rest2 =>
            match map_iso6937_to_utf8 diacritic (char_of_uchar next) with
            | Some utf8_char =>
                let utf8_len := length utf8_char in
                convert_loop rest2 (j + utf8_len) (memcpy output j utf8_char)
            | None => literal
            end
        | [] => literal
        end
      else literal
  end.

(** The size passed to [malloc]. *)
Definition out_len (length : nat) : nat := length * 4.

(** The output buffer as the function leaves it; [input] is the memory
    behind the pointer, of which the first [length] bytes are read. *)
Definition convert_iso6937_to_utf8 (input : list Z) (length : nat)
    : gmap nat Z :=
  let '(j, output) := convert_loop (take length input) 0 ∅ in
  <[j := 0]> output.

(** The bytes of the output before the terminator the function appends. *)
Definition transcoded (input : list Z) : list Z :=
  let output := convert_iso6937_to_utf8 input (length input) in
  take (size output - 1) (contents output).

(** *** Loops with [break] *)

Inductive flow (S : Type) : Type :=
| Continue (st : S)
| Break (st : S).
Arguments Continue {S} st.
Arguments Break {S} st.

(** [for (i = ...; ...; i++) body], over the values [i] takes. *)
Fixpoint for_each {S : Type} (indices : list nat)
    (body : nat -> S -> flow S) (st : S) : S :=
  match indices with
  | [] => st
  | i :: indices' =>
      match body i st with
      | Continue st' => for_each indices' body st'
      | Break st' => st'
      end
  end.

(** *** Colours of a line *)

Record color_scan := {
  text_color : Z;
  background_color : Z;
  current_line : Z
}.

Definition extract_colors_body (buf : list Z) (line_count : Z)
    (i : nat) (st : color_scan) : flow color_scan :=
  let byte := byte_at buf i in
  let newline :=
    if byte =? 0x8A then
      let current_line' := wrap_int (current_line st + 1) in
      if current_line' >? line_count then
        Break {| text_color := text_color st;
                 background_color := background_color st;
                 current_line := current_line' |}
      else
        Continue {| text_color := 0x00; background_color := 0x07;
                    current_line := current_line' |}
    else Continue st in
  match newline with
  | Break st' => Break st'
  | Continue st' =>
      if current_line st' =? line_count then
        if (0x00 <=? byte) && (byte <=? 0x07) then
          Continue {| text_color := byte;
                      background_color := background_color st';
                      current_line := current_line st' |}
        else if (0x10 <=? byte) && (byte <=? 0x17) then
          Continue {| text_color := text_color st';
                      background_color := Z.land byte 0x07;
                      current_line := current_line st' |}
        else Continue st'
      else Continue st'
  end.

(** The offsets the colour scan visits. *)
Definition color_scan_offsets : list nat :=
  seq TTI_TEXT_FIELD_OFFSET TTI_TEXT_FIELD_LENGTH.

(** The values left in [*text_color] and [*background_color]. *)
Definition extract_colors_from_tti (buf : list Z) (line_count : Z) : Z * Z :=
  let st :=
    for_each color_scan_offsets (extract_colors_body buf line_count)
      {| text_color := 0x00; background_color := 0x07; current_line := 0 |} in
  (text_color st, background_color st).

(** *** Markup of a block *)

(** The [if] chain that picks the text colour tag of the first line; the
    pointer keeps its value [prev] when no branch is taken. *)
Definition text_color_str_first (text_color : Z) (prev : option cstring)
    : option cstring :=
  if text_color =? 0 then Some (cstr "{\c&HFFFFFF&}")
  else if text_color =? 1 then Some (cstr "{\c&H0000FF&}")
  else if text_color =? 2 then Some (cstr "{\c&H00FF00&}")
  else if text_color =? 3 then Some (cstr "{\c&H00FFFF&}")
  else if text_color =? 4 then Some (cstr "{\c&HFF0000&}")
  else if text_color =? 5 then Some (cstr "{\c&HFF00FF&}")
  else if text_color =? 6 then Some (cstr "{\c&HFFFF00&}")
  else if text_color =? 7 then Some (cstr "{\c&H000000&}")
  else prev.

(** The [if] chain that picks the text colour tag after a line break. *)
Definition text_color_str_next (text_color : Z) (prev : option cstring)
    : option cstring :=
  if text_color =? 0 then Some (cstr "{\c&HFFFFFF&}")
  else if text_color =? 1 then Some (cstr "{\c&HFF0000&}")
  else if text_color =? 2 then Some (cstr "{\c&H00FF00&}")
  else if text_color =? 3 then Some (cstr "{\c&H00FFFF&}")
  else if text_color =? 4 then Some (cstr "{\c&H0000FF&}")
  else if text_color =? 5 then Some (cstr "{\c&HFF00FF&}")
  else if text_color =? 6 then Some (cstr "{\c&HFFFF00&}")
  else if text_color =? 7 then Some (cstr "{\c&H000000&}")
  else prev.

(** The [if] chain of the border colour tag, the same at both places. *)
Definition border_color_of (background_color : Z) (prev : option cstring)
    : option cstring :=
  if background_color =? 0 then Some (cstr "{\3c&HFFFFFF&}")
  else if background_color =? 1 then Some (cstr "{\3c&H00FFFF&}")
  else if background_color =? 2 then Some (cstr "{\3c&H00FF00&}")
  else if background_color =? 3 then Some (cstr "{\3c&HFF0000&}")
  else if background_color =? 4 then Some (cstr "{\3c&H0000FF&}")
  else if background_color =? 5 then Some (cstr "{\3c&HFF00FF&}")
  else if background_color =? 6 then Some (cstr "{\3c&HFFFF00&}")
  else if background_color =? 7 then Some (cstr "{\3c&H000000&}")
  else prev.

Definition text_field_offset : nat := 13.

Record text_scan := {
  ass_string : cstring;
  line : list Z;
  text_len : nat;
  line_count : Z;
  text_color_str : option cstring;
  border_color : option cstring
}.

(** Terminate [line], convert it and append it to the markup: after a
    line-break marker when it is not the first line, as it is otherwise,
    and not at all when it is empty. *)
Definition append_line (st : text_scan) : text_scan :=
  let line' := <[text_len st := 0]> (line st) in
  let utf8_line := convert_iso6937_to_utf8 line' (text_len st) in
  let ass_string' :=
    if (line_count st >? 0) && (0 <? text_len st)%nat then
      ass_string st ++ cstr "\N" ++ c_string utf8_line
    else if (0 <? text_len st)%nat then
      ass_string st ++ c_string utf8_line
    else ass_string st in
  {| ass_string := ass_string'; line := line'; text_len := text_len st;
     line_count := line_count st; text_color_str := text_color_str st;
     border_color := border_color st |}.

Definition extract_text_body (tti_block : list Z)
    (i : nat) (st : text_scan) : flow text_scan :=
  let character := byte_at tti_block i in
  if character =? 0x8A then
    let st1 := append_line st in
    let line_count' := wrap_int (line_count st1 + 1) in
    let '(text_color, background_color) :=
      extract_colors_from_tti tti_block line_count' in
    let text_color_str' :=
      text_color_str_next text_color (text_color_str st1) in
    let border_color' := border_color_of background_color (border_color st1) in
    Continue {| ass_string :=
                  ass_string st1 ++ fmt_s text_color_str' ++ fmt_s border_color';
                line := line st1; text_len := 0; line_count := line_count';
                text_color_str := text_color_str';
                border_color := border_color' |}
  else if character =? 0x8F then Break st
  else if character >=? 32 then
    Continue {| ass_string := ass_string st;
                line := <[text_len st := character]> (line st);
                text_len := S (text_len st); line_count := line_count st;
                text_color_str := text_color_str st;
                border_color := border_color st |}
  else Continue st.

(** The offsets the text scan visits. *)
Definition text_scan_offsets (tti_block_size : Z) : list nat :=
  seq text_field_offset (Z.to_nat tti_block_size - text_field_offset).

Definition extract_text_and_colors_from_tti_block
    (tti_block : list Z) (tti_block_size : Z) : cstring :=
  let line := replicate (Z.to_nat (tti_block_size * 2)) 0 in
  let line_count := 0 in
  let '(text_color, background_color) :=
    extract_colors_from_tti tti_block line_count in
  let text_color_str := text_color_str_first text_color None in
  let border_color := border_color_of background_color None in
  let st :=
    for_each (text_scan_offsets tti_block_size) (extract_text_body tti_block)
      {| ass_string := fmt_s text_color_str ++ fmt_s border_color;
         line := line; text_len := 0; line_count := line_count;
         text_color_str := text_color_str; border_color := border_color |} in
  ass_string (append_line st).

(** *** Decoding a packet *)

(** [data_size] is the field [size] of the packet. *)

Record AVPacket := { data : list Z; data_size : Z }.

(** [rects] lists the text and the read order handed to
    [ff_ass_add_rect], oldest first. *)
Record decode_state := {
  rects : list (cstring * Z);
  readorder : Z;
  got_sub_ptr : Z
}.

Definition horizontal_alignment (justification_code : Z) : Z :=
  if justification_code =? 0x01 then 1
  else if justification_code =? 0x02 then 2
  else if justification_code =? 0x03 then 3
  else 2.

Definition vertical_alignment (vertical_position : Z) : Z :=
  if vertical_position <? 8 then 3
  else if (vertical_position >=? 8) && (vertical_position <=? 16) then 2
  else 1.

(** The number printed in the alignment tag. *)
Definition alignment_code (vertical_position justification_code : Z) : Z :=
  wrap_int (wrap_int ((vertical_alignment vertical_position - 1) * 3)
            + horizontal_alignment justification_code).

Definition alignment_str (vertical_position justification_code : Z)
    : cstring :=
  cstr "{\an" ++ fmt_d (alignment_code vertical_position justification_code)
    ++ cstr "}".

(** The [while] loop of [ebustl_decode_frame]; [None] when [fuel]
    iterations do not reach its end. *)
Fixpoint decode_loop (fuel : nat) (buf : list Z) (buf_size : Z)
    (st : decode_state) : option decode_state :=
  if buf_size >=? TTI_BLOCK_SIZE then
    match fuel with
    | O => None
    | S fuel' =>
        let ass_text :=
          extract_text_and_colors_from_tti_block buf TTI_BLOCK_SIZE in
        match ass_text with
        | [] =>
            decode_loop fuel' (drop (Z.to_nat TTI_BLOCK_SIZE) buf)
              (buf_size - TTI_BLOCK_SIZE) st
        | _ :: _ =>
            let justification_code := byte_at buf 14 in
            let vertical_position := byte_at buf 13 in
            let final_ass_text :=
              alignment_str vertical_position justification_code
                ++ ass_text ++ cstr "{\bord3}" in
            decode_loop fuel' (drop (Z.to_nat TTI_BLOCK_SIZE) buf)
              (buf_size - TTI_BLOCK_SIZE)
              {| rects := rects st ++ [(final_ass_text, readorder st)];
                 readorder := wrap_int (readorder st + 1);
                 got_sub_ptr := 1 |}
        end
    end
  else Some st.

(** [readorder0] is the read order the decoder context holds on entry. *)
Definition ebustl_decode_frame (readorder0 : Z) (avpkt : AVPacket)
    : option decode_state :=
  decode_loop (Z.to_nat (data_size avpkt)) (data avpkt) (data_size avpkt)
    {| rects := []; readorder := readorder0; got_sub_ptr := 0 |}.

End Avcodec.

(** ** The specification's wording of the derived values *)

Module Spec.

(** Timecode: milliseconds from hours, minutes, seconds and frames. *)
Definition milliseconds (hours minutes seconds frames : Z) : Z :=
  ((hours - 10) * 3600 + minutes * 60 + seconds) * 1000 + frames * 40.

(** Bottom = 3 below 8, Middle = 2 from 8 to 16, Top = 1 above 16. *)
Definition vertical_rank (v : Z) : Z :=
  if v <? 8 then 3 else if v <=? 16 then 2 else 1.

(** Left = 1 for 0x01, Right = 3 for 0x03, Center = 2 otherwise. *)
Definition horizontal_rank (j : Z) : Z :=
  if j =? 0x01 then 1 else if j =? 0x03 then 3 else 2.

(** A diacritic lead byte. *)
Definition is_diacritic (d : Z) : Prop := 0xC1 <= d <= 0xCF.

(** The four supported diacritics. *)
Inductive accent : Set := Grave | Acute | Circumflex | Diaeresis.

(** Grave is the lead byte 0xC1, acute 0xC2, circumflex 0xC3 and diaeresis
    0xC8; the other lead bytes have no table. *)
Definition accent_of_lead (lead : Z) : option accent :=
  if lead =? 0xC1 then Some Grave
  else if lead =? 0xC2 then Some Acute
  else if lead =? 0xC3 then Some Circumflex
  else if lead =? 0xC8 then Some Diaeresis
  else None.

(** The Unicode code point of the precomposed character for a vowel
    A, E, I, O or U, in either case, under an accent: the Latin-1 letters
    U+00C0 to U+00DC for the capitals and, 0x20 above them, U+00E0 to
    U+00FC for the small letters.  Other letters have none. *)
Definition accented (a : accent) (letter : Z) : option Z :=
  let capital (grave acute circumflex diaeresis : Z) : Z :=
    match a with
    | Grave => grave
    | Acute => acute
    | Circumflex => circumflex
    | Diaeresis => diaeresis
    end in
  if letter =? 65 then Some (capital 0xC0 0xC1 0xC2 0xC4)
  else if letter =? 69 then Some (capital 0xC8 0xC9 0xCA 0xCB)
  else if letter =? 73 then Some (capital 0xCC 0xCD 0xCE 0xCF)
  else if letter =? 79 then Some (capital 0xD2 0xD3 0xD4 0xD6)
  else if letter =? 85 then Some (capital 0xD9 0xDA 0xDB 0xDC)
  else if letter =? 97 then Some (capital 0xC0 0xC1 0xC2 0xC4 + 0x20)
  else if letter =? 101 then Some (capital 0xC8 0xC9 0xCA 0xCB + 0x20)
  else if letter =? 105 then Some (capital 0xCC 0xCD 0xCE 0xCF + 0x20)
  else if letter =? 111 then Some (capital 0xD2 0xD3 0xD4 0xD6 + 0x20)
  else if letter =? 117 then Some (capital 0xD9 0xDA 0xDB 0xDC + 0x20)
  else None.

(** The code point of the single precomposed character a lead byte and a
    base letter stand for, when the pair has a defined mapping. *)
Definition precomposed (lead base : Z) : option Z :=
  match accent_of_lead lead with
  | Some a => accented a base
  | None => None
  end.

(** The UTF-8 encoding of a code point (RFC 3629). *)
Definition utf8_encode (cp : Z) : list Z :=
  if cp <? 0x80 then [cp]
  else if cp <? 0x800 then [0xC0 + cp / 64; 0x80 + cp mod 64]
  else if cp <? 0x10000 then
    [0xE0 + cp / 4096; 0x80 + (cp / 64) mod 64; 0x80 + cp mod 64]
  else
    [0xF0 + cp / 262144; 0x80 + (cp / 4096) mod 64; 0x80 + (cp / 64) mod 64;
     0x80 + cp mod 64].

End Spec.

(** ** The transcoder as a function on lists *)

Module Pure.

Import Avcodec.

(** The bytes [convert_loop] appends for the input [rest], leaving out
    the buffer and the write offset: the same case analysis, with the
    stores replaced by the bytes stored. *)
Fixpoint utf8_of (rest : list Z) : list Z :=
  match rest with
  | [] => []
  | diacritic :: rest1 =>
      let literal := diacritic :: utf8_of rest1 in
      if (0xC1 <=? diacritic) && (diacritic <=? 0xCF) then
        match rest1 with
        | next :: rest2 =>
            match map_iso6937_to_utf8 diacritic (char_of_uchar next) with
            | Some utf8_char => utf8_char ++ utf8_of rest2
            | None => literal
            end
        | [] => literal
        end
      else literal
  end.

(** The case labels of [switch_base]. *)
Definition vowels : list Z := [65; 69; 73; 79; 85; 97; 101; 105; 111; 117].

End Pure.

(** ** Blocks and probe buffers used as concrete inputs *)

Module Inputs.

Import Avformat Avcodec.

(** A TTI block: the 16 bytes before the text field, the bytes of the
    text field, and 0x8F up to the end of the block. *)
Definition tti (head field : list Z) : list Z :=
  head ++ field ++ replicate (128 - length head - length field) 0x8F.

(** Thirteen zero bytes, then vertical position, justification code and
    comment flag. *)
Definition head (vertical_position justification_code : Z) : list Z :=
  replicate 13 0 ++ [vertical_position; justification_code; 0].

Definition packet (block : list Z) : AVPacket :=
  {| data := block; data_size := Z.of_nat (length block) |}.

(** Five bytes of a file that ends there, followed by the zero padding
    a probe buffer carries. *)
Definition five_bytes : AVProbeData :=
  {| buf := [0; 0; 0; 83; 84] ++ replicate 32 0; buf_size := 5 |}.

(** The text field holds nothing but end-of-text markers. *)
Definition block_empty : list Z := tti (head 5 2) [].

(** "A", line break, colour code 0x01, "B". *)
Definition block_red_second_line : list Z :=
  tti (head 5 2) (cstr "A" ++ [0x8A; 0x01] ++ cstr "B").

(** Colour code 0x01, "A", line break, "B": the same colour code on the
    first line. *)
Definition block_red_first_line : list Z :=
  tti (head 5 2) ([0x01] ++ cstr "A" ++ [0x8A] ++ cstr "B").

(** "HI", end of text, then either padding or a colour code. *)
Definition block_hi : list Z := tti (head 5 2) (cstr "HI" ++ [0x8F; 0x8F]).
Definition block_hi_trailing : list Z :=
  tti (head 5 2) (cstr "HI" ++ [0x8F; 0x01]).

(** Vertical position 50, the byte of the digit 2, before the text "HI". *)
Definition block_row_50 : list Z := tti (head 50 2) (cstr "HI").

End Inputs.

(** ** Lines of a text field, as functions on lists *)

Module Lines.

Import Avcodec Pure.

(** The effect of one byte of the requested line on the pair (text colour,
    background colour), as in the second half of the body of the colour
    scan. *)
Definition apply_color (colors : Z * Z) (byte : Z) : Z * Z :=
  if (0x00 <=? byte) && (byte <=? 0x07) then (byte, snd colors)
  else if (0x10 <=? byte) && (byte <=? 0x17) then (fst colors, Z.land byte 0x07)
  else colors.

(** The bytes of line [k] of a field: those between the [k]-th line break
    0x8A and the next one, or the end of the field. *)
Fixpoint nth_line (k : nat) (field : list Z) : list Z :=
  match field with
  | [] => []
  | byte :: rest =>
      if byte =? 0x8A then
        match k with
        | O => []
        | S k' => nth_line k' rest
        end
      else
        match k with
        | O => byte :: nth_line 0 rest
        | S _ => nth_line k rest
        end
  end.

(** The bytes at the offsets the colour scan visits. *)
Definition color_field (buf : list Z) : list Z :=
  byte_at buf <$> color_scan_offsets.

(** The bytes at the offsets the text scan visits. *)
Definition text_field (tti_block : list Z) (tti_block_size : Z) : list Z :=
  byte_at tti_block <$> text_scan_offsets tti_block_size.

(** The two tags at the start of the markup. *)
Definition first_tags (tti_block : list Z) : cstring :=
  let '(text_color, background_color) := extract_colors_from_tti tti_block 0 in
  fmt_s (text_color_str_first text_color None)
    ++ fmt_s (border_color_of background_color None).

(** The two tags appended after a line break, for the line that starts. *)
Definition next_tags (tti_block : list Z) (line_count : Z) : cstring :=
  let '(text_color, background_color) :=
    extract_colors_from_tti tti_block line_count in
  fmt_s (text_color_str_next text_color None)
    ++ fmt_s (border_color_of background_color None).

(** What a finished line adds to the markup: nothing when it has no byte,
    its conversion otherwise, after the line-break marker when it is not
    the first line. *)
Definition line_piece (acc : list Z) (line_count : Z) : cstring :=
  match acc with
  | [] => []
  | _ :: _ =>
      if line_count >? 0 then cstr "\N" ++ utf8_of acc else utf8_of acc
  end.

(** What the text scan appends to the markup for the bytes still to scan,
    given the bytes [acc] collected for the current line and its number:
    the case analysis of [extract_text_body] and of the code after the
    loop, with the line buffer replaced by the list of its bytes. *)
Fixpoint render (tti_block : list Z) (bytes : list Z) (acc : list Z)
    (line_count : Z) : cstring :=
  match bytes with
  | [] => line_piece acc line_count
  | character :: rest =>
      if character =? 0x8A then
        line_piece acc line_count
          ++ next_tags tti_block (wrap_int (line_count + 1))
          ++ render tti_block rest [] (wrap_int (line_count + 1))
      else if character =? 0x8F then line_piece acc line_count
      else if character >=? 32 then
        render tti_block rest (acc ++ [character]) line_count
      else render tti_block rest acc line_count
  end.

(** The state in which [extract_text_and_colors_from_tti_block] enters
    its loop. *)
Definition text_scan_start (tti_block : list Z) (tti_block_size : Z)
    : text_scan :=
  let '(text_color, background_color) := extract_colors_from_tti tti_block 0 in
  let text_color_str := text_color_str_first text_color None in
  let border_color := border_color_of background_color None in
  {| ass_string := fmt_s text_color_str ++ fmt_s border_color;
     line := replicate (Z.to_nat (tti_block_size * 2)) 0;
     text_len := 0; line_count := 0;
     text_color_str := text_color_str; border_color := border_color |}.

(** The bytes before the first end-of-text marker 0x8F. *)
Fixpoint before_end (bytes : list Z) : list Z :=
  match bytes with
  | [] => []
  | byte :: rest => if byte =? 0x8F then [] else byte :: before_end rest
  end.

(** The text [ebustl_decode_frame] hands to the sink for the block at the
    start of [buf]. *)
Definition block_text (buf : list Z) : cstring :=
  alignment_str (byte_at buf 13) (byte_at buf 14)
    ++ extract_text_and_colors_from_tti_block buf Avcodec.TTI_BLOCK_SIZE
    ++ cstr "{\bord3}".

End Lines.

(** ** libavformat/ebustldec.c: reading the stream *)

Module Demuxer.

Import Avformat.

(** Modelled from the spec: the byte-stream source ([AVIOContext] with
    [avio_seek] and [avio_read] of libavformat, not under src/), "a
    byte-stream source supporting sequential fixed-size reads with a
    distinguishable short-read/EOF signal": the bytes of the file and the
    read position. *)
Record AVIOContext := { stream : list Z; pos : nat }.

(** Modelled from the spec: [avio_seek(pb, offset, SEEK_SET)] moves the read
    position to [offset], also beyond the end of the file. *)
Definition avio_seek (pb : AVIOContext) (offset : Z) : AVIOContext :=
  {| stream := stream pb; pos := Z.to_nat offset |}.

(** Modelled from the spec: [avio_read(pb, buf, size)] copies the next
    [size] bytes, or the fewer that are left, advances the position by
    their number and returns it (a short read is any result below
    [size]). *)
Definition avio_read (pb : AVIOContext) (size : Z)
    : Z * list Z * AVIOContext :=
  let bytes := take (Z.to_nat size) (drop (pos pb) (stream pb)) in
  (Z.of_nat (length bytes), bytes,
   {| stream := stream pb; pos := (pos pb + length bytes)%nat |}).

(** The fields of the stream that [ebustl_read_header] sets. *)
Record AVStream := {
  codec_type : Z;
  codec_id : Z;
  codec_width : Z;
  codec_height : Z;
  stream_time_base : Z * Z;
  pts_wrap_bits : Z
}.

(** The fields of the packet that [ebustl_read_packet] sets. *)
Record Packet := {
  pkt_data : list Z;
  pkt_size : Z;
  pts : Z;
  duration : Z;
  stream_index : Z
}.

Section Demux.

(** Declared in libavutil and libavcodec, outside src/. *)
Variables AVERROR_EOF AVMEDIA_TYPE_SUBTITLE AV_CODEC_ID_EBUSTL : Z.

(** The return value, the new stream and the stream source after the
    seek. *)
Definition ebustl_read_header (pb : AVIOContext)
    : Z * AVStream * AVIOContext :=
  (0,
   {| codec_type := AVMEDIA_TYPE_SUBTITLE;
      codec_id := AV_CODEC_ID_EBUSTL;
      codec_width := 720;
      codec_height := 576;
      stream_time_base := (1, 1000);
      pts_wrap_bits := 64 |},
   avio_seek pb EBU_HEADER_SIZE).

(** The packet filled from the [TTI_BLOCK_SIZE] bytes read. *)
Definition fill_packet (bytes : list Z) : Packet :=
  let pts := ebustl_timestamp_to_pts (drop 5 bytes) in
  let pts_end := ebustl_timestamp_to_pts (drop 9 bytes) in
  {| pkt_data := bytes;
     pkt_size := Avformat.TTI_BLOCK_SIZE;
     pts := pts;
     duration := wrap_int64 (pts_end - pts);
     stream_index := 0 |}.

(** The return value, the packet when there is one, and the stream source
    after the read. *)
Definition ebustl_read_packet (pb : AVIOContext)
    : Z * option Packet * AVIOContext :=
  let '(ret, bytes, pb') := avio_read pb Avformat.TTI_BLOCK_SIZE in
  if ret <? Avformat.TTI_BLOCK_SIZE then (AVERROR_EOF, None, pb')
  else (0, Some (fill_packet bytes), pb').

(** The packets that up to [n] successive calls of [ebustl_read_packet]
    deliver, stopping at the first call that delivers none, and the stream
    source after the last call. *)
Fixpoint read_packets (n : nat) (pb : AVIOContext)
    : list Packet * AVIOContext :=
  match n with
  | O => ([], pb)
  | S n' =>
      match ebustl_read_packet pb with
      | (_, Some pkt, pb') =>
          let '(pkts, pb'') := read_packets n' pb' in (pkt :: pkts, pb'')
      | (_, None, pb') => ([], pb')
      end
  end.

End Demux.

End Demuxer.

(** ** libavcodec/ebustldec.c: initialisation and logging *)

Module Setup.

Import Avcodec.




(** An upper-case hexadecimal digit. *)
Definition hex_digit (d : Z) : Z := if d <? 10 then 48 + d else 55 + d.

(** The hexadecimal digits of [v], most significant first, at most
    [fuel] of them. *)
Fixpoint hex_digits (fuel : nat) (v : Z) (acc : cstring) : cstring :=
  match fuel with
  | O => acc
  | S fuel' =>
      let acc' := hex_digit (v mod 16) :: acc in
      if v / 16 =? 0 then acc' else hex_digits fuel' (v / 16) acc'
  end.

(** [%02X] of an [unsigned int]. *)
Definition fmt_02X (v : Z) : cstring :=
  let digits := hex_digits 8 (v mod 2 ^ 32) [] in
  replicate (2 - length digits) 48 ++ digits.

(** [snprintf(&mem[k], size, "%02X ", v)] for [size > 0]: at most
    [size - 1] bytes of the text, then a NUL. *)
Definition snprintf_02X (mem : gmap nat Z) (k : nat) (size : nat) (v : Z)
    : gmap nat Z :=
  let text := take (size - 1) (fmt_02X v ++ cstr " ") in
  <[(k + length text)%nat := 0]> (memcpy mem k text).

(** The size of [hex_output]. *)
Definition hex_output_size : nat := Z.to_nat (TTI_BLOCK_SIZE * 3 + 1).

(** The bytes [log_tti_block_hex] stores in [hex_output] before it prints
    it. *)
Definition log_tti_block_hex (buf : list Z) (buf_size : Z) : gmap nat Z :=
  for_each (seq 0 (Z.to_nat (Z.min TTI_BLOCK_SIZE buf_size)))
    (fun i hex_output =>
       Continue (snprintf_02X hex_output (i * 3) 4 (byte_at buf i)))
    ∅.

End Setup.

(** ** Files used as concrete inputs *)

Module Files.

Import Demuxer Inputs.

(** The block [block_hi] with subtitle number 1, start timecode 10:00:05:00
    and end timecode 10:00:07:00 in its first 13 bytes. *)
Definition timed_block : list Z :=
  [0; 0; 1; 255; 0; 10; 0; 5; 0; 10; 0; 7; 0] ++ drop 13 block_hi.

(** A header of 1024 zero bytes, the timed block, an empty block and three
    bytes of a block cut short. *)
Definition short_file : list Z :=
  replicate 1024 0 ++ timed_block ++ block_empty ++ [1; 2; 3].

(** The stream source of [short_file] after its header. *)
Definition short_file_body : AVIOContext :=
  {| stream := short_file; pos := 1024 |}.

End Files.

Import Avformat Avcodec Pure Inputs.
Import Lines Demuxer Setup Files.

(** * Properties *)

(** ** Integer ranges *)

Lemma wrap_int_small z : - 2 ^ 31 <= z < 2 ^ 31 -> wrap_int z = z.
Proof. intros H. unfold wrap_int. rewrite Z.mod_small; lia. Qed.

Lemma wrap_int64_small z : - 2 ^ 63 <= z < 2 ^ 63 -> wrap_int64 z = z.
Proof. intros H. unfold wrap_int64. rewrite Z.mod_small; lia. Qed.

(** ** Timecodes *)

(** C5.  The timecode conversion is defined on every four bytes and yields
    ((h - 10) * 3600 + m * 60 + s) * 1000 + f * 40, whatever the values of
    the minute and second bytes; no intermediate result leaves the range
    of its C type. *)
Theorem timestamp_to_pts_formula (h m s f : Z) (rest : list Z) :
  is_uint8 h -> is_uint8 m -> is_uint8 s -> is_uint8 f ->
  ebustl_timestamp_to_pts (h :: m :: s :: f :: rest)
  = Spec.milliseconds h m s f
  /\ Spec.milliseconds h m s f
     = ((h - 10) * 3600 + m * 60 + s) * 1000 + f * 40.
Proof.
  unfold is_uint8. intros Hh Hm Hs Hf. split; [|reflexivity].
  unfold ebustl_timestamp_to_pts, Spec.milliseconds, byte_at. cbn [nth].
  change (Z.quot 1000 25) with 40.
  rewrite (wrap_int_small 40) by lia.
  rewrite (wrap_int_small (h - 10)) by lia.
  rewrite (wrap_int_small (f * 40)) by lia.
  rewrite (wrap_int64_small ((h - 10) * 3600)) by lia.
  rewrite (wrap_int64_small (m * 60)) by lia.
  rewrite (wrap_int64_small ((h - 10) * 3600 + m * 60)) by lia.
  rewrite (wrap_int64_small ((h - 10) * 3600 + m * 60 + s)) by lia.
  rewrite (wrap_int64_small (((h - 10) * 3600 + m * 60 + s) * 1000)) by lia.
  rewrite wrap_int64_small by lia.
  reflexivity.
Qed.

Lemma timestamp_to_pts_formula_witness :
  is_uint8 10 /\ is_uint8 99 /\ is_uint8 5 /\ is_uint8 24 /\
  (ebustl_timestamp_to_pts [10; 99; 5; 24] = Spec.milliseconds 10 99 5 24
   /\ Spec.milliseconds 10 99 5 24
      = ((10 - 10) * 3600 + 99 * 60 + 5) * 1000 + 24 * 40).
Proof.
  unfold is_uint8.
  repeat (split; [lia|]).
  apply (timestamp_to_pts_formula 10 99 5 24 []); unfold is_uint8; lia.
Defined.

(** ** Loops *)

(** A property of the loop state that every iteration keeps holds when the
    loop ends, by exhaustion or by [break]. *)
Lemma for_each_invariant {S : Type} (P : S -> Prop)
    (body : nat -> S -> flow S) (indices : list nat) (st : S) :
  (forall i st, P st ->
     match body i st with Continue st' | Break st' => P st' end) ->
  P st -> P (for_each indices body st).
Proof.
  intros Hbody. revert st.
  induction indices as [|i indices IH]; intros st Hst; cbn [for_each].
  - exact Hst.
  - specialize (Hbody i st Hst). destruct (body i st); auto.
Qed.

(** ** The markup of a block is never empty *)

Lemma fmt_s_text_color_first c : fmt_s (text_color_str_first c None) <> [].
Proof.
  unfold text_color_str_first.
  repeat match goal with |- context [if ?b then _ else _] => destruct b end;
    discriminate.
Qed.

Lemma append_line_grows st : ass_string st <> [] -> ass_string (append_line st) <> [].
Proof.
  intros H. unfold append_line. cbn [ass_string].
  repeat match goal with |- context [if ?b then _ else _] => destruct b end;
    try exact H; intros Happ; apply app_eq_nil in Happ; tauto.
Qed.

Lemma extract_text_body_grows tti_block i st :
  ass_string st <> [] ->
  match extract_text_body tti_block i st with
  | Continue st' | Break st' => ass_string st' <> []
  end.
Proof.
  intros H. unfold extract_text_body.
  destruct (byte_at tti_block i =? 0x8A).
  - destruct (extract_colors_from_tti _ _) as [tc bc]. cbn [ass_string].
    intros Happ. apply app_eq_nil in Happ as [Happ _].
    revert Happ. apply append_line_grows, H.
  - destruct (byte_at tti_block i =? 0x8F); [exact H|].
    destruct (byte_at tti_block i >=? 32); exact H.
Qed.

Lemma extract_text_never_empty tti_block tti_block_size :
  extract_text_and_colors_from_tti_block tti_block tti_block_size <> [].
Proof.
  unfold extract_text_and_colors_from_tti_block.
  destruct (extract_colors_from_tti tti_block 0) as [tc bc].
  apply append_line_grows.
  apply (for_each_invariant (fun st => ass_string st <> [])).
  - intros i st. apply extract_text_body_grows.
  - cbn [ass_string]. intros Happ. apply app_eq_nil in Happ as [Happ _].
    revert Happ. apply fmt_s_text_color_first.
Qed.

(** ** The decode loop *)

Lemma decode_loop_exit fuel buf buf_size st :
  buf_size < 128 -> decode_loop fuel buf buf_size st = Some st.
Proof.
  intros H. assert ((buf_size >=? Avcodec.TTI_BLOCK_SIZE) = false) as Hb.
  { unfold Avcodec.TTI_BLOCK_SIZE. rewrite Z.geb_leb. apply Z.leb_gt. exact H. }
  destruct fuel; unfold decode_loop; fold decode_loop; rewrite Hb; reflexivity.
Qed.

Lemma decode_loop_block fuel buf buf_size st c text :
  128 <= buf_size ->
  extract_text_and_colors_from_tti_block buf 128 = c :: text ->
  decode_loop (S fuel) buf buf_size st
  = decode_loop fuel (drop 128 buf) (buf_size - 128)
      {| rects := rects st
                  ++ [(alignment_str (byte_at buf 13) (byte_at buf 14)
                         ++ (c :: text) ++ cstr "{\bord3}", readorder st)];
         readorder := wrap_int (readorder st + 1);
         got_sub_ptr := 1 |}.
Proof.
  intros H Htext.
  assert ((buf_size >=? Avcodec.TTI_BLOCK_SIZE) = true) as Hb.
  { unfold Avcodec.TTI_BLOCK_SIZE. rewrite Z.geb_leb. apply Z.leb_le. exact H. }
  unfold decode_loop; fold decode_loop. rewrite Hb.
  change Avcodec.TTI_BLOCK_SIZE with 128. rewrite Htext. reflexivity.
Qed.

(** A packet of one block always hands one text to [ff_ass_add_rect]: the
    alignment tag, the markup of the block and the border tag. *)
Lemma decode_frame_one_block (block : list Z) (r : Z) :
  ebustl_decode_frame r {| data := block; data_size := 128 |}
  = Some {| rects :=
              [(alignment_str (byte_at block 13) (byte_at block 14)
                  ++ extract_text_and_colors_from_tti_block block 128
                  ++ cstr "{\bord3}", r)];
            readorder := wrap_int (r + 1);
            got_sub_ptr := 1 |}.
Proof.
  unfold ebustl_decode_frame, data, data_size.
  pose proof (extract_text_never_empty block 128) as Hne.
  destruct (extract_text_and_colors_from_tti_block block 128) as [|c text] eqn:Htext;
    [congruence|].
  replace (Z.to_nat 128) with (S 127) by reflexivity.
  rewrite (decode_loop_block _ _ _ _ c text) by (lia || exact Htext).
  rewrite decode_loop_exit by lia. reflexivity.
Qed.

(** ** Alignment *)

Lemma alignment_code_range v j : 1 <= alignment_code v j <= 9.
Proof.
  unfold alignment_code, vertical_alignment, horizontal_alignment.
  repeat match goal with |- context [if ?b then _ else _] => destruct b end;
    vm_compute; split; discriminate.
Qed.

Lemma fmt_d_digit k : 1 <= k <= 9 -> fmt_d k = [48 + k].
Proof.
  intros H.
  assert (k = 1 \/ k = 2 \/ k = 3 \/ k = 4 \/ k = 5 \/ k = 6 \/ k = 7
          \/ k = 8 \/ k = 9) as Hk by lia.
  repeat destruct Hk as [->|Hk]; try subst k; reflexivity.
Qed.

(** C6.  The alignment code is (vertical_rank - 1) * 3 + horizontal_rank,
    with vertical rank 3 below 8, 2 from 8 to 16 and 1 above, and
    horizontal rank 1 for 0x01, 3 for 0x03 and 2 for every other byte; it
    is 7 for (5, 0x01), 5 for (12, 0x02) and 3 for (20, 0x03); and the text
    emitted for a block starts with the tag that carries, as its one digit,
    this code for the bytes at offsets 13 (vertical position) and 14
    (justification) of the block. *)
Theorem alignment_code_formula (v j : Z) :
  alignment_code v j = (Spec.vertical_rank v - 1) * 3 + Spec.horizontal_rank j
  /\ (alignment_code 5 0x01 = 7 /\ alignment_code 12 0x02 = 5
      /\ alignment_code 20 0x03 = 3)
  /\ forall (block : list Z) (r : Z),
     exists markup,
       option_map rects
         (ebustl_decode_frame r {| data := block; data_size := 128 |})
       = Some [(cstr "{\an"
                  ++ [48 + alignment_code (byte_at block 13) (byte_at block 14)]
                  ++ cstr "}" ++ markup, r)].
Proof.
  split; [|split].
  - unfold alignment_code, vertical_alignment, horizontal_alignment,
      Spec.vertical_rank, Spec.horizontal_rank.
    destruct (Z.ltb_spec v 8); destruct (Z.leb_spec v 16);
      destruct (Z.geb_spec v 8); try lia;
      destruct (Z.eqb_spec j 1); destruct (Z.eqb_spec j 2);
      destruct (Z.eqb_spec j 3); try lia; reflexivity.
  - repeat split; reflexivity.
  - intros block r. rewrite decode_frame_one_block. cbn [option_map rects].
    unfold alignment_str.
    rewrite fmt_d_digit by apply alignment_code_range.
    eexists. rewrite <- !app_assoc. reflexivity.
Qed.

(** ** Format probe *)

Lemma probe_short (score : Z) (p : AVProbeData) :
  buf_size p < 5 -> ebustl_probe score p = (0, []).
Proof.
  intros H. unfold ebustl_probe.
  destruct (Z.ltb_spec (buf_size p) 5); [reflexivity|lia].
Qed.

(** With at least six bytes, every read is inside the buffer. *)
Lemma probe_reads_in_bounds (score : Z) (p : AVProbeData) :
  6 <= buf_size p ->
  Forall (fun i => Z.of_nat i < buf_size p) (snd (ebustl_probe score p)).
Proof.
  intros H. unfold ebustl_probe.
  destruct (Z.ltb_spec (buf_size p) 5); [lia|].
  unfold bind, and_then, rd_eq, rd, ret, bind. cbn beta iota.
  destruct (byte_at (buf p) 3 =? _); cbn beta iota;
    [destruct (byte_at (buf p) 4 =? _); cbn beta iota|];
    cbn [snd app]; repeat constructor; lia.
Qed.

(** From five bytes on, the score is the maximum exactly for "STL" at
    offsets 3 to 5. *)
Lemma probe_matches_signature (score : Z) (p : AVProbeData) :
  score <> 0 -> 5 <= buf_size p ->
  fst (ebustl_probe score p) = score
  <-> byte_at (buf p) 3 = 83 /\ byte_at (buf p) 4 = 84
      /\ byte_at (buf p) 5 = 76.
Proof.
  intros Hscore H. unfold ebustl_probe.
  destruct (Z.ltb_spec (buf_size p) 5); [lia|].
  unfold bind, and_then, rd_eq, rd, ret, bind. cbn beta iota.
  change (byte_of_ascii "S") with 83. change (byte_of_ascii "T") with 84.
  change (byte_of_ascii "L") with 76.
  destruct (Z.eqb_spec (byte_at (buf p) 3) 83); cbn beta iota;
    [destruct (Z.eqb_spec (byte_at (buf p) 4) 84); cbn beta iota;
     [destruct (Z.eqb_spec (byte_at (buf p) 5) 76); cbn beta iota|]|];
    cbn [fst]; split; intros; try tauto; try congruence.
Qed.

(** C10.  With a buffer of five bytes that has 'S' and 'T' at offsets 3 and
    4, the probe passes its size test and reads offsets 3, 4 and 5: the
    last one is not below the buffer size. *)
Theorem probe_reads_offset_5_of_5 :
  buf_size five_bytes = 5
  /\ ebustl_probe 100 five_bytes = (0, [3; 4; 5]%nat)
  /\ ~ Forall (fun i => Z.of_nat i < buf_size five_bytes)
         (snd (ebustl_probe 100 five_bytes)).
Proof.
  split; [reflexivity|]. split; [reflexivity|].
  intros H. change (snd (ebustl_probe 100 five_bytes)) with [3; 4; 5]%nat in H.
  apply Forall_cons_1 in H as [_ H]. apply Forall_cons_1 in H as [_ H].
  apply Forall_cons_1 in H as [H _]. cbn in H. lia.
Qed.

(** ** Output buffers *)

Lemma size_map_seq (l : list Z) : size (map_seq 0 l : gmap nat Z) = length l.
Proof.
  rewrite <- size_dom, dom_seq_L. apply size_set_seq.
Qed.

Lemma contents_map_seq (l : list Z) : contents (map_seq 0 l) = l.
Proof.
  unfold contents. rewrite size_map_seq.
  apply list_eq. intros i. rewrite list_lookup_fmap.
  destruct (decide (i < length l)%nat) as [Hi|Hi].
  - rewrite lookup_seq_lt by exact Hi. cbn.
    rewrite lookup_map_seq_0.
    destruct (lookup_lt_is_Some_2 l i Hi) as [x Hx]. rewrite Hx. reflexivity.
  - rewrite lookup_seq_ge by lia. cbn. symmetry. apply lookup_ge_None. lia.
Qed.

Lemma memcpy_map_seq (src acc : list Z) :
  memcpy (map_seq 0 acc) (length acc) src = map_seq 0 (acc ++ src).
Proof.
  revert acc. induction src as [|c src IH]; intros acc; cbn [memcpy].
  - rewrite app_nil_r. reflexivity.
  - replace (<[length acc := c]> (map_seq 0 acc) : gmap nat Z)
      with (map_seq 0 (acc ++ [c]) : gmap nat Z)
      by (rewrite map_seq_snoc; reflexivity).
    replace (S (length acc)) with (length (acc ++ [c]))
      by (rewrite length_app; cbn; lia).
    rewrite IH, <- app_assoc. reflexivity.
Qed.

(** ** The conversion loop *)

(** The loop appends [utf8_of rest] to what the buffer holds. *)
Lemma convert_loop_appends (n : nat) :
  forall (rest acc : list Z), (length rest <= n)%nat ->
    convert_loop rest (length acc) (map_seq 0 acc)
    = (length (acc ++ utf8_of rest), map_seq 0 (acc ++ utf8_of rest)).
Proof.
  induction n as [|n IH]; intros rest acc Hn.
  - destruct rest; [|cbn in Hn; lia]. cbn. rewrite app_nil_r. reflexivity.
  - destruct rest as [|d rest1]; [cbn; rewrite app_nil_r; reflexivity|].
    cbn [length] in Hn.
    assert (convert_loop rest1 (S (length acc)) (<[length acc := d]> (map_seq 0 acc))
            = (length (acc ++ d :: utf8_of rest1),
               map_seq 0 (acc ++ d :: utf8_of rest1))) as Hlit.
    { replace (<[length acc := d]> (map_seq 0 acc) : gmap nat Z)
        with (map_seq 0 (acc ++ [d]) : gmap nat Z)
        by (rewrite map_seq_snoc; reflexivity).
      replace (S (length acc)) with (length (acc ++ [d]))
        by (rewrite length_app; cbn; lia).
      rewrite IH by lia. rewrite <- app_assoc. reflexivity. }
    cbn [convert_loop utf8_of].
    destruct ((0xC1 <=? d) && (d <=? 0xCF)); [|exact Hlit].
    destruct rest1 as [|b rest2]; [exact Hlit|].
    destruct (map_iso6937_to_utf8 d (char_of_uchar b)) as [u|]; [|exact Hlit].
    rewrite memcpy_map_seq.
    replace (length acc + length u)%nat with (length (acc ++ u))
      by (rewrite length_app; reflexivity).
    rewrite IH by (cbn [length] in Hn; lia).
    rewrite <- app_assoc. reflexivity.
Qed.

(** The buffer the converter returns holds the converted bytes and a NUL,
    from offset 0 on. *)
Lemma convert_buffer (input : list Z) (n : nat) :
  convert_iso6937_to_utf8 input n = map_seq 0 (utf8_of (take n input) ++ [0]).
Proof.
  unfold convert_iso6937_to_utf8.
  change (∅ : gmap nat Z) with (map_seq 0 (@nil Z) : gmap nat Z).
  change 0%nat with (length (@nil Z)) at 1.
  rewrite (convert_loop_appends (length (take n input))) by lia.
  cbn [app]. rewrite map_seq_snoc. reflexivity.
Qed.

Lemma transcoded_utf8_of (input : list Z) : transcoded input = utf8_of input.
Proof.
  unfold transcoded. rewrite convert_buffer, firstn_all.
  rewrite size_map_seq, contents_map_seq, length_app. cbn [length].
  replace (length (utf8_of input) + 1 - 1)%nat with (length (utf8_of input)) by lia.
  rewrite take_app_length. reflexivity.
Qed.

(** ** The mapping table *)

Lemma switch_base_Some base A E I O U a e i o u s :
  switch_base base A E I O U a e i o u = Some s -> In base vowels.
Proof.
  unfold switch_base, vowels.
  repeat case_match; try discriminate; intros _; subst; cbn; tauto.
Qed.

Lemma map_iso6937_Some_vowel d base s :
  map_iso6937_to_utf8 d base = Some s -> In base vowels.
Proof.
  unfold map_iso6937_to_utf8.
  repeat case_match; try discriminate; apply switch_base_Some.
Qed.

(** Every entry of the table is one character of two UTF-8 bytes. *)
Lemma map_iso6937_two_bytes d base s :
  map_iso6937_to_utf8 d base = Some s ->
  exists x, s = [0xC3; x] /\ 0x80 <= x <= 0xBF.
Proof.
  intros H. pose proof (map_iso6937_Some_vowel _ _ _ H) as Hv.
  unfold vowels in Hv. cbn [In] in Hv.
  unfold map_iso6937_to_utf8 in H.
  repeat case_match; try discriminate;
    repeat destruct Hv as [Hv|Hv]; try contradiction; subst base;
    vm_compute in H; injection H as <-; eexists; (split; [reflexivity|lia]).
Qed.

(** A diacritic lead byte is never the base of a pair. *)
Lemma diacritic_not_base lead d :
  Spec.is_diacritic d -> map_iso6937_to_utf8 lead (char_of_uchar d) = None.
Proof.
  unfold Spec.is_diacritic. intros Hd.
  destruct (map_iso6937_to_utf8 lead (char_of_uchar d)) eqn:E; [|reflexivity].
  apply map_iso6937_Some_vowel in E. exfalso.
  unfold char_of_uchar in E. destruct (Z.ltb_spec d 128); [lia|].
  unfold vowels in E. cbn [In] in E. lia.
Qed.

Lemma in_range_diacritic d :
  Spec.is_diacritic d -> (0xC1 <=? d) && (d <=? 0xCF) = true.
Proof.
  unfold Spec.is_diacritic. intros Hd.
  apply andb_true_iff. split; apply Z.leb_le; lia.
Qed.

(** One step of the list function. *)
Lemma utf8_of_cons (d : Z) (rest1 : list Z) :
  utf8_of (d :: rest1)
  = if (0xC1 <=? d) && (d <=? 0xCF) then
      match rest1 with
      | next :: rest2 =>
          match map_iso6937_to_utf8 d (char_of_uchar next) with
          | Some utf8_char => utf8_char ++ utf8_of rest2
          | None => d :: utf8_of rest1
          end
      | [] => d :: utf8_of rest1
      end
    else d :: utf8_of rest1.
Proof. destruct rest1; reflexivity. Qed.

Lemma utf8_of_pair d b tail u :
  Spec.is_diacritic d ->
  map_iso6937_to_utf8 d (char_of_uchar b) = Some u ->
  utf8_of (d :: b :: tail) = u ++ utf8_of tail.
Proof.
  intros Hd Hu. rewrite utf8_of_cons, (in_range_diacritic d Hd), Hu. reflexivity.
Qed.

Lemma utf8_of_literal d tail :
  match tail with
  | b :: _ => map_iso6937_to_utf8 d (char_of_uchar b) = None
  | [] => True
  end ->
  utf8_of (d :: tail) = d :: utf8_of tail.
Proof.
  intros H. rewrite utf8_of_cons.
  destruct ((0xC1 <=? d) && (d <=? 0xCF)); [|reflexivity].
  destruct tail as [|b tail']; [reflexivity|]. rewrite H. reflexivity.
Qed.

(** A diacritic lead byte is always read as the first byte of a step. *)
Lemma utf8_of_app_diacritic (d : Z) (tail : list Z) (n : nat) :
  Spec.is_diacritic d ->
  forall pre : list Z, (length pre <= n)%nat ->
    utf8_of (pre ++ d :: tail) = utf8_of pre ++ utf8_of (d :: tail).
Proof.
  intros Hd. induction n as [|n IH]; intros pre Hn.
  - destruct pre; [reflexivity|cbn in Hn; lia].
  - destruct pre as [|x pre1]; [reflexivity|]. cbn [length] in Hn.
    rewrite <- app_comm_cons.
    rewrite (utf8_of_cons x (pre1 ++ d :: tail)), (utf8_of_cons x pre1).
    rewrite (IH pre1) by lia.
    destruct ((0xC1 <=? x) && (x <=? 0xCF)); [|reflexivity].
    destruct pre1 as [|y pre2].
    + cbn [app]. rewrite (diacritic_not_base x d Hd). reflexivity.
    + rewrite <- app_comm_cons.
      destruct (map_iso6937_to_utf8 x (char_of_uchar y)) as [u|]; [|reflexivity].
      rewrite IH by (cbn [length] in Hn; lia).
      rewrite app_assoc. reflexivity.
Qed.

(** ** Reading the output as a C string *)

Lemma read_cstring_prefix (mem : gmap nat Z) (t : list Z) :
  forall (k fuel : nat),
    (forall i, mem !! (k + i)%nat = (t ++ [0]) !! i) ->
    Forall (fun b => b <> 0) t -> (length t < fuel)%nat ->
    read_cstring mem k fuel = t.
Proof.
  induction t as [|c t IH]; intros k fuel Hmem Hnz Hfuel.
  - destruct fuel; [cbn in Hfuel; lia|]. cbn [read_cstring].
    specialize (Hmem 0%nat). rewrite Nat.add_0_r in Hmem. rewrite Hmem.
    reflexivity.
  - destruct fuel; [cbn in Hfuel; lia|]. cbn [read_cstring].
    pose proof (Hmem 0%nat) as H0. rewrite Nat.add_0_r in H0. rewrite H0.
    cbn [app lookup list_lookup].
    apply Forall_cons_1 in Hnz as [Hc Hnz].
    destruct (Z.eqb_spec c 0); [contradiction|].
    f_equal. apply IH.
    + intros i. specialize (Hmem (S i)).
      replace (S k + i)%nat with (k + S i)%nat by lia. exact Hmem.
    + exact Hnz.
    + cbn [length] in Hfuel. lia.
Qed.

Lemma c_string_map_seq (t : list Z) :
  Forall (fun b => b <> 0) t -> c_string (map_seq 0 (t ++ [0])) = t.
Proof.
  intros Hnz. unfold c_string. apply read_cstring_prefix.
  - intros i. cbn [Nat.add]. apply lookup_map_seq_0.
  - exact Hnz.
  - rewrite size_map_seq, length_app. cbn [length]. lia.
Qed.

(** ** Bytes that are not diacritics *)

Lemma utf8_of_plain (input : list Z) :
  Forall (fun b => b < 0xC1) input -> utf8_of input = input.
Proof.
  induction 1 as [|b input Hb _ IH]; [reflexivity|].
  rewrite utf8_of_cons, IH.
  destruct (Z.leb_spec 0xC1 b); [lia|]. reflexivity.
Qed.

(** ** Length of the output *)

Lemma length_utf8_of (n : nat) :
  forall input : list Z, (length input <= n)%nat ->
    (length (utf8_of input) <= length input)%nat.
Proof.
  induction n as [|n IH]; intros input Hn.
  - destruct input; [cbn; lia|cbn in Hn; lia].
  - destruct input as [|d rest1]; [cbn; lia|]. cbn [length] in Hn.
    rewrite utf8_of_cons.
    pose proof (IH rest1 ltac:(lia)) as Hlit.
    destruct ((0xC1 <=? d) && (d <=? 0xCF)); [|cbn [length]; lia].
    destruct rest1 as [|b rest2]; [cbn; lia|].
    destruct (map_iso6937_to_utf8 d (char_of_uchar b)) as [u|] eqn:Hu;
      [|cbn [length] in *; lia].
    apply map_iso6937_two_bytes in Hu as (x & -> & _).
    pose proof (IH rest2 ltac:(cbn [length] in Hn; lia)).
    rewrite length_app. cbn [length]. lia.
Qed.

(** The offsets written are those of the converted bytes and of the NUL
    after them. *)
Lemma convert_footprint (input : list Z) (n : nat) :
  dom (convert_iso6937_to_utf8 input n)
  = set_seq 0 (S (length (utf8_of (take n input)))).
Proof.
  rewrite convert_buffer, dom_seq_L, length_app. cbn [length].
  f_equal. lia.
Qed.

(** For an input of at least one byte the writes stay inside the
    allocation. *)
Lemma convert_within_nonempty (input : list Z) (n : nat) :
  (1 <= n)%nat -> within (out_len n) (convert_iso6937_to_utf8 input n).
Proof.
  intros Hn k. rewrite convert_footprint, elem_of_set_seq. intros [_ Hk].
  pose proof (length_utf8_of _ (take n input) (Nat.le_refl _)) as Hlen.
  pose proof (length_take_le input n) as Htake.
  unfold out_len. rewrite length_take in Hlen. lia.
Qed.

(** ** Transcoding *)

(** The table of the source maps a pair to the UTF-8 encoding of the
    precomposed character the pair stands for, and only the pairs that
    have one. *)
Lemma map_iso6937_is_precomposed (lead base : Z) :
  map_iso6937_to_utf8 lead base
  = option_map Spec.utf8_encode (Spec.precomposed lead base).
Proof.
  unfold Spec.precomposed, Spec.accent_of_lead.
  destruct (Z.eqb_spec lead 0xC1) as [->|H1];
    [|destruct (Z.eqb_spec lead 0xC2) as [->|H2];
      [|destruct (Z.eqb_spec lead 0xC3) as [->|H3];
        [|destruct (Z.eqb_spec lead 0xC8) as [->|H8]]]].
  5: { unfold map_iso6937_to_utf8.
       repeat case_match; try reflexivity; subst; contradiction. }
  all: unfold map_iso6937_to_utf8, switch_base, Spec.accented;
    destruct (Z.eqb_spec base 65) as [->|?]; [reflexivity|];
    destruct (Z.eqb_spec base 69) as [->|?]; [reflexivity|];
    destruct (Z.eqb_spec base 73) as [->|?]; [reflexivity|];
    destruct (Z.eqb_spec base 79) as [->|?]; [reflexivity|];
    destruct (Z.eqb_spec base 85) as [->|?]; [reflexivity|];
    destruct (Z.eqb_spec base 97) as [->|?]; [reflexivity|];
    destruct (Z.eqb_spec base 101) as [->|?]; [reflexivity|];
    destruct (Z.eqb_spec base 105) as [->|?]; [reflexivity|];
    destruct (Z.eqb_spec base 111) as [->|?]; [reflexivity|];
    destruct (Z.eqb_spec base 117) as [->|?]; [reflexivity|];
    cbn [option_map]; repeat case_match; try reflexivity; subst; contradiction.
Qed.

(** A byte and the [char] it is passed as stand for the same base letter. *)
Lemma precomposed_char_of_uchar (lead b : Z) :
  0 <= b < 256 ->
  Spec.precomposed lead (char_of_uchar b) = Spec.precomposed lead b.
Proof.
  intros Hb. unfold char_of_uchar.
  destruct (Z.ltb_spec b 128); [reflexivity|].
  unfold Spec.precomposed. destruct (Spec.accent_of_lead lead); [|reflexivity].
  unfold Spec.accented.
  repeat match goal with
         | |- context [?x =? ?c] => destruct (Z.eqb_spec x c); [lia|]
         end.
  reflexivity.
Qed.

(** C7.  A diacritic lead byte followed by a byte with a defined mapping
    becomes the one precomposed character of the pair, and the input after
    the pair is converted next; followed by a byte without a mapping, or
    at the end of the input, it is copied as it is and the byte after it
    is converted as the start of the remaining input.  This holds wherever
    the lead byte stands in the input.  Acute followed by e gives e-acute,
    and a lone acute gives the acute byte.  The precomposed character is
    fixed independently of the source's table: for every lead byte and
    base letter the table returns the UTF-8 encoding of the Unicode code
    point of the vowel under grave (0xC1), acute (0xC2), circumflex (0xC3)
    or diaeresis (0xC8), and nothing for any other pair. *)
Theorem diacritic_pair_or_literal (pre tail : list Z) (d b : Z) :
  Spec.is_diacritic d ->
  transcoded (pre ++ d :: b :: tail)
  = match map_iso6937_to_utf8 d (char_of_uchar b) with
    | Some precomposed => transcoded pre ++ precomposed ++ transcoded tail
    | None => transcoded pre ++ d :: transcoded (b :: tail)
    end
  /\ match map_iso6937_to_utf8 d (char_of_uchar b) with
     | Some precomposed =>
         exists x, precomposed = [0xC3; x] /\ 0x80 <= x <= 0xBF
     | None => True
     end
  /\ transcoded (pre ++ [d]) = transcoded pre ++ [d]
  /\ transcoded [0xC2; 0x65] = [0xC3; 0xA9]
  /\ cstr "é" = [0xC3; 0xA9]
  /\ transcoded [0xC2] = [0xC2]
  /\ (forall lead base : Z,
        map_iso6937_to_utf8 lead base
        = option_map Spec.utf8_encode (Spec.precomposed lead base))
  /\ transcoded (pre ++ d :: b :: tail)
     = match Spec.precomposed d (char_of_uchar b) with
       | Some code_point =>
           transcoded pre ++ Spec.utf8_encode code_point ++ transcoded tail
       | None => transcoded pre ++ d :: transcoded (b :: tail)
       end
  /\ Spec.precomposed d (char_of_uchar (b mod 256))
     = Spec.precomposed d (b mod 256)
  /\ Spec.precomposed 0xC2 0x65 = Some 0xE9.
Proof.
  intros Hd. rewrite !transcoded_utf8_of.
  rewrite (utf8_of_app_diacritic d (b :: tail) (length pre) Hd pre (Nat.le_refl _)).
  rewrite (utf8_of_app_diacritic d [] (length pre) Hd pre (Nat.le_refl _)).
  assert (utf8_of pre ++ utf8_of (d :: b :: tail)
          = match map_iso6937_to_utf8 d (char_of_uchar b) with
            | Some precomposed => utf8_of pre ++ precomposed ++ utf8_of tail
            | None => utf8_of pre ++ d :: utf8_of (b :: tail)
            end) as Hpair.
  { destruct (map_iso6937_to_utf8 d (char_of_uchar b)) as [u|] eqn:Hu.
    - rewrite (utf8_of_pair d b tail u Hd Hu). reflexivity.
    - rewrite utf8_of_literal by exact Hu. reflexivity. }
  split; [exact Hpair|].
  split; [|split; [|split; [|split; [|split; [|split; [|split; [|split]]]]]]].
  - destruct (map_iso6937_to_utf8 d (char_of_uchar b)) as [u|] eqn:Hu;
      [|exact I].
    exact (map_iso6937_two_bytes _ _ _ Hu).
  - rewrite utf8_of_literal by exact I. reflexivity.
  - reflexivity.
  - reflexivity.
  - reflexivity.
  - exact map_iso6937_is_precomposed.
  - rewrite Hpair, map_iso6937_is_precomposed.
    destruct (Spec.precomposed d (char_of_uchar b)); reflexivity.
  - apply precomposed_char_of_uchar. apply Z.mod_pos_bound. lia.
  - reflexivity.
Qed.

Lemma diacritic_pair_or_literal_witness :
  Spec.is_diacritic 0xC2 /\
  (transcoded (cstr "caf" ++ 0xC2 :: 0x65 :: cstr "s")
   = match map_iso6937_to_utf8 0xC2 (char_of_uchar 0x65) with
     | Some precomposed =>
         transcoded (cstr "caf") ++ precomposed ++ transcoded (cstr "s")
     | None => transcoded (cstr "caf") ++ 0xC2 :: transcoded (0x65 :: cstr "s")
     end
   /\ match map_iso6937_to_utf8 0xC2 (char_of_uchar 0x65) with
      | Some precomposed =>
          exists x, precomposed = [0xC3; x] /\ 0x80 <= x <= 0xBF
      | None => True
      end
   /\ transcoded (cstr "caf" ++ [0xC2]) = transcoded (cstr "caf") ++ [0xC2]
   /\ transcoded [0xC2; 0x65] = [0xC3; 0xA9]
   /\ cstr "é" = [0xC3; 0xA9]
   /\ transcoded [0xC2] = [0xC2]
   /\ (forall lead base : Z,
         map_iso6937_to_utf8 lead base
         = option_map Spec.utf8_encode (Spec.precomposed lead base))
   /\ transcoded (cstr "caf" ++ 0xC2 :: 0x65 :: cstr "s")
      = match Spec.precomposed 0xC2 (char_of_uchar 0x65) with
        | Some code_point =>
            transcoded (cstr "caf") ++ Spec.utf8_encode code_point
              ++ transcoded (cstr "s")
        | None =>
            transcoded (cstr "caf") ++ 0xC2 :: transcoded (0x65 :: cstr "s")
        end
   /\ Spec.precomposed 0xC2 (char_of_uchar (0x65 mod 256))
      = Spec.precomposed 0xC2 (0x65 mod 256)
   /\ Spec.precomposed 0xC2 0x65 = Some 0xE9).
Proof.
  split.
  - unfold Spec.is_diacritic. lia.
  - apply (diacritic_pair_or_literal (cstr "caf") (cstr "s") 0xC2 0x65).
    unfold Spec.is_diacritic. lia.
Defined.

(** C8.  An input of printable ASCII bytes, and more generally of non-zero
    bytes below 0xC1, is converted to itself: the bytes written before the
    terminator, and the C string the caller reads from the buffer, are the
    input. *)
Theorem printable_ascii_unchanged (input : list Z) :
  Forall (fun b => 0 < b < 0xC1) input ->
  transcoded input = input
  /\ c_string (convert_iso6937_to_utf8 input (length input)) = input.
Proof.
  intros H.
  assert (utf8_of input = input) as Hid.
  { apply utf8_of_plain. eapply Forall_impl; [exact H|]. cbn. intros b Hb. lia. }
  split.
  - rewrite transcoded_utf8_of. exact Hid.
  - rewrite convert_buffer, firstn_all, Hid. apply c_string_map_seq.
    eapply Forall_impl; [exact H|]. cbn. intros b Hb. lia.
Qed.

Lemma printable_ascii_unchanged_witness :
  Forall (fun b => 0 < b < 0xC1) (cstr "Hi, STL!")
  /\ (transcoded (cstr "Hi, STL!") = cstr "Hi, STL!"
      /\ c_string (convert_iso6937_to_utf8 (cstr "Hi, STL!")
                     (length (cstr "Hi, STL!")))
         = cstr "Hi, STL!").
Proof.
  assert (Forall (fun b => 0 < b < 0xC1) (cstr "Hi, STL!")) as H.
  { repeat constructor; vm_compute; reflexivity. }
  split; [exact H|].
  apply (printable_ascii_unchanged (cstr "Hi, STL!")). exact H.
Defined.

(** C9.  For the empty input the converter asks for 0 bytes and stores the
    terminator at offset 0, which no allocation of 0 bytes contains. *)
Theorem terminator_outside_empty_allocation :
  out_len 0 = 0%nat
  /\ dom (convert_iso6937_to_utf8 [] 0) = {[0%nat]}
  /\ convert_iso6937_to_utf8 [] 0 !! 0%nat = Some 0
  /\ ~ within (out_len 0) (convert_iso6937_to_utf8 [] 0).
Proof.
  split; [reflexivity|].
  assert (dom (convert_iso6937_to_utf8 [] 0) = {[0%nat]}) as Hdom.
  { rewrite convert_footprint. cbn. set_solver. }
  split; [exact Hdom|]. split; [reflexivity|].
  intros H. specialize (H 0%nat). rewrite Hdom in H.
  specialize (H ltac:(set_solver)). unfold out_len in H. lia.
Qed.

(** ** Every packet is decoded to the end *)

Lemma decode_loop_terminates (fuel : nat) :
  forall (buf : list Z) (buf_size : Z) (st : decode_state),
    buf_size < 128 * (Z.of_nat fuel + 1) ->
    is_Some (decode_loop fuel buf buf_size st).
Proof.
  induction fuel as [|fuel IH]; intros buf buf_size st Hfuel.
  - rewrite decode_loop_exit by lia. eexists; reflexivity.
  - destruct (Z.lt_ge_cases buf_size 128) as [Hlt|Hge].
    + rewrite decode_loop_exit by lia. eexists; reflexivity.
    + pose proof (extract_text_never_empty buf 128) as Hne.
      destruct (extract_text_and_colors_from_tti_block buf 128)
        as [|c text] eqn:Htext; [congruence|].
      rewrite (decode_loop_block _ _ _ _ c text) by (lia || exact Htext).
      apply IH. lia.
Qed.

Lemma decode_frame_terminates (r : Z) (avpkt : AVPacket) :
  is_Some (ebustl_decode_frame r avpkt).
Proof.
  unfold ebustl_decode_frame. apply decode_loop_terminates. lia.
Qed.

(** ** Colour tables *)

(** The two text colour chains agree except for the colours 1 and 4. *)
Lemma text_color_tables_agree (c : Z) (prev : option cstring) :
  c <> 1 -> c <> 4 -> text_color_str_next c prev = text_color_str_first c prev.
Proof.
  intros H1 H4. unfold text_color_str_next, text_color_str_first.
  destruct (Z.eqb_spec c 0); [reflexivity|].
  destruct (Z.eqb_spec c 1); [contradiction|].
  destruct (Z.eqb_spec c 2); [reflexivity|].
  destruct (Z.eqb_spec c 3); [reflexivity|].
  destruct (Z.eqb_spec c 4); [contradiction|].
  reflexivity.
Qed.

Lemma land_7_range (byte : Z) : 0 <= Z.land byte 0x07 <= 7.
Proof.
  split.
  - apply Z.land_nonneg. right. lia.
  - destruct (Z.le_gt_cases (Z.land byte 7) 7) as [H|H]; [exact H|].
    exfalso.
    assert (Z.land byte 7 = Z.land (Z.land byte 7) 7) as Hidem
      by (rewrite <- Z.land_assoc; reflexivity).
    assert (0 <= Z.land byte 7) as Hpos by (apply Z.land_nonneg; right; lia).
    change 7 with (Z.ones 3) in Hidem at 3.
    rewrite Z.land_ones in Hidem by lia.
    pose proof (Z.mod_pos_bound (Z.land byte 7) (2 ^ 3) ltac:(lia)). lia.
Qed.

(** The colour scan leaves two colours between 0 and 7, so both [if]
    chains take a branch and no tag pointer is [NULL] when it is printed. *)
Lemma extract_colors_in_range (buf : list Z) (line_count : Z) :
  0 <= fst (extract_colors_from_tti buf line_count) <= 7
  /\ 0 <= snd (extract_colors_from_tti buf line_count) <= 7.
Proof.
  unfold extract_colors_from_tti. cbn [fst snd].
  apply (for_each_invariant
           (fun st => 0 <= text_color st <= 7 /\ 0 <= background_color st <= 7)).
  - intros i st Hst. unfold extract_colors_body.
    generalize (byte_at buf i). intros byte.
    assert (forall st' : color_scan,
              0 <= text_color st' <= 7 /\ 0 <= background_color st' <= 7 ->
              match
                (if current_line st' =? line_count then
                   if (0x00 <=? byte) && (byte <=? 0x07) then
                     Continue {| text_color := byte;
                                 background_color := background_color st';
                                 current_line := current_line st' |}
                   else if (0x10 <=? byte) && (byte <=? 0x17) then
                     Continue {| text_color := text_color st';
                                 background_color := Z.land byte 0x07;
                                 current_line := current_line st' |}
                   else Continue st'
                 else Continue st')
              with
              | Continue s | Break s =>
                  0 <= text_color s <= 7 /\ 0 <= background_color s <= 7
              end) as Hcolors.
    { intros st' [Ht Hb].
      destruct (current_line st' =? line_count); [|tauto].
      destruct (Z.leb_spec 0 byte); destruct (Z.leb_spec byte 7); cbn [andb];
        try (cbn [text_color background_color]; lia);
        (destruct ((16 <=? byte) && (byte <=? 23));
         [cbn [text_color background_color]; split;
          [lia|apply land_7_range]|tauto]). }
    destruct (byte =? 0x8A); [|apply Hcolors, Hst].
    destruct (wrap_int (current_line st + 1) >? line_count).
    + cbn [text_color background_color]. exact Hst.
    + apply Hcolors. cbn [text_color background_color]. lia.
  - cbn [text_color background_color]. lia.
Qed.

Lemma color_tags_not_null (c : Z) (prev : option cstring) :
  0 <= c <= 7 ->
  is_Some (text_color_str_first c prev)
  /\ is_Some (text_color_str_next c prev)
  /\ is_Some (border_color_of c prev).
Proof.
  intros H.
  assert (c = 0 \/ c = 1 \/ c = 2 \/ c = 3 \/ c = 4 \/ c = 5 \/ c = 6 \/ c = 7)
    as Hc by lia.
  repeat destruct Hc as [->|Hc]; try subst c;
    (split; [|split]); eexists; reflexivity.
Qed.

(** ** Behaviour on concrete blocks *)

(** C1.  The colour scan starts at offset 16 of the block and the text scan
    at offset 13, so the two scans do not read the same bytes: a vertical
    position byte of 50 (offset 13) is copied into the text as the digit 2,
    and a colour code stored there is not seen by the colour scan, while
    the same colour code at offset 16 is. *)
Theorem scan_offsets_differ :
  hd_error color_scan_offsets = Some TTI_TEXT_FIELD_OFFSET
  /\ hd_error (text_scan_offsets 128) = Some text_field_offset
  /\ TTI_TEXT_FIELD_OFFSET = 16%nat /\ text_field_offset = 13%nat
  /\ text_field_offset <> TTI_TEXT_FIELD_OFFSET
  /\ extract_text_and_colors_from_tti_block block_row_50 128
     = cstr "{\c&HFFFFFF&}{\3c&H000000&}2HI"
  /\ extract_colors_from_tti (tti (head 0x01 2) (cstr "HI")) 0 = (0, 7)
  /\ extract_colors_from_tti (tti (head 5 2) (0x01 :: cstr "HI")) 0 = (1, 7).
Proof.
  repeat split; try discriminate; vm_compute; reflexivity.
Qed.

(** C2.  A block whose text field holds only end-of-text markers still
    yields a cue: its markup is the pair of default colour tags, which is
    not empty, so the decoder hands it to the sink and advances the read
    order. *)
Theorem empty_block_is_emitted :
  length block_empty = 128%nat
  /\ drop 16 block_empty = replicate 112 0x8F
  /\ extract_text_and_colors_from_tti_block block_empty 128
     = cstr "{\c&HFFFFFF&}{\3c&H000000&}"
  /\ ebustl_decode_frame 0 (packet block_empty)
     = Some {| rects := [(cstr "{\an8}{\c&HFFFFFF&}{\3c&H000000&}{\bord3}", 0)];
               readorder := 1;
               got_sub_ptr := 1 |}.
Proof.
  repeat split; vm_compute; reflexivity.
Qed.

(** C3.  Text colour 1 gives the tag 0000FF and colour 4 the tag FF0000 on
    the first line, and the other way round after a line break: the colour
    code 0x01 yields 0000FF when it stands on the first line and FF0000
    when it stands on the second. *)
Theorem text_color_tag_depends_on_line :
  text_color_str_first 1 None = Some (cstr "{\c&H0000FF&}")
  /\ text_color_str_next 1 None = Some (cstr "{\c&HFF0000&}")
  /\ text_color_str_first 4 None = Some (cstr "{\c&HFF0000&}")
  /\ text_color_str_next 4 None = Some (cstr "{\c&H0000FF&}")
  /\ extract_colors_from_tti block_red_first_line 0 = (1, 7)
  /\ extract_colors_from_tti block_red_second_line 1 = (1, 7)
  /\ extract_text_and_colors_from_tti_block block_red_first_line 128
     = cstr "{\c&H0000FF&}{\3c&H000000&}A{\c&HFFFFFF&}{\3c&H000000&}\NB"
  /\ extract_text_and_colors_from_tti_block block_red_second_line 128
     = cstr "{\c&HFFFFFF&}{\3c&H000000&}A{\c&HFF0000&}{\3c&H000000&}\NB".
Proof.
  repeat split; vm_compute; reflexivity.
Qed.

(** C4.  Two blocks that agree up to and including the first end-of-text
    marker of the text field, at offset 18, and differ in the byte after
    it: the colour scan reads that byte, so the colour of the line and the
    markup differ. *)
Theorem colors_read_past_end_of_text :
  take 19 block_hi = take 19 block_hi_trailing
  /\ take 3 (drop 16 block_hi) = cstr "HI" ++ [0x8F]
  /\ byte_at block_hi 19 = 0x8F /\ byte_at block_hi_trailing 19 = 0x01
  /\ drop 20 block_hi = drop 20 block_hi_trailing
  /\ extract_colors_from_tti block_hi 0 = (0, 7)
  /\ extract_colors_from_tti block_hi_trailing 0 = (1, 7)
  /\ extract_text_and_colors_from_tti_block block_hi 128
     = cstr "{\c&HFFFFFF&}{\3c&H000000&}HI"
  /\ extract_text_and_colors_from_tti_block block_hi_trailing 128
     = cstr "{\c&H0000FF&}{\3c&H000000&}HI".
Proof.
  repeat split; vm_compute; reflexivity.
Qed.

(** * Further properties of the demuxer and the decoder *)

(** ** Format probe *)

(** X1.  With a buffer of 6 bytes or more, every offset the probe reads is
    inside the buffer; it reads offsets 3, 4 and 5 in this order, at least
    the first one, and stops at the first one that does not hold its
    signature byte. *)
Theorem probe_reads_inside_six_bytes (score : Z) (p : AVProbeData) :
  6 <= buf_size p ->
  Forall (fun i => Z.of_nat i < buf_size p) (snd (ebustl_probe score p))
  /\ snd (ebustl_probe score p)
     = if negb (byte_at (buf p) 3 =? 83) then [3%nat]
       else if negb (byte_at (buf p) 4 =? 84) then [3; 4]%nat
       else [3; 4; 5]%nat.
Proof.
  intros H. split; [apply probe_reads_in_bounds, H|].
  unfold ebustl_probe. destruct (Z.ltb_spec (buf_size p) 5); [lia|].
  unfold bind, and_then, rd_eq, rd, ret, bind. cbn beta iota.
  change (byte_of_ascii "S") with 83. change (byte_of_ascii "T") with 84.
  destruct (byte_at (buf p) 3 =? 83); cbn beta iota;
    [destruct (byte_at (buf p) 4 =? 84); cbn beta iota|]; reflexivity.
Qed.

Lemma probe_reads_inside_six_bytes_witness :
  6 <= buf_size {| buf := cstr "123SxL"; buf_size := 6 |} /\
  (Forall (fun i => Z.of_nat i < buf_size {| buf := cstr "123SxL"; buf_size := 6 |})
     (snd (ebustl_probe 100 {| buf := cstr "123SxL"; buf_size := 6 |}))
   /\ snd (ebustl_probe 100 {| buf := cstr "123SxL"; buf_size := 6 |})
      = if negb (byte_at (buf {| buf := cstr "123SxL"; buf_size := 6 |}) 3 =? 83)
        then [3%nat]
        else if negb (byte_at (buf {| buf := cstr "123SxL"; buf_size := 6 |}) 4
                      =? 84)
             then [3; 4]%nat
             else [3; 4; 5]%nat).
Proof.
  split; [cbn; lia|].
  apply (probe_reads_inside_six_bytes 100 {| buf := cstr "123SxL"; buf_size := 6 |}).
  cbn. lia.
Defined.

(** X2.  For a non-zero maximum score the probe answers either 0 or the
    maximum, and the maximum exactly when the buffer has at least 5 bytes
    and offsets 3, 4 and 5 hold 'S', 'T' and 'L'; a buffer of fewer than 5
    bytes is rejected without a read. *)
Theorem probe_accepts_exactly_stl (score : Z) (p : AVProbeData) :
  score <> 0 ->
  (fst (ebustl_probe score p) = score
   <-> 5 <= buf_size p /\ byte_at (buf p) 3 = 83 /\ byte_at (buf p) 4 = 84
       /\ byte_at (buf p) 5 = 76)
  /\ (fst (ebustl_probe score p) = 0 \/ fst (ebustl_probe score p) = score)
  /\ (ebustl_probe score p = (0, []) \/ 5 <= buf_size p).
Proof.
  intros Hscore. destruct (Z.lt_ge_cases (buf_size p) 5) as [Hlt|Hge].
  - rewrite probe_short by exact Hlt. cbn [fst].
    split; [|split; left; reflexivity].
    split; [congruence|lia].
  - split; [|split; [|right; exact Hge]].
    + rewrite (probe_matches_signature score p Hscore Hge). tauto.
    + unfold ebustl_probe. destruct (Z.ltb_spec (buf_size p) 5); [lia|].
      unfold bind, and_then, rd_eq, rd, ret, bind. cbn beta iota.
      destruct (byte_at (buf p) 3 =? _); cbn beta iota;
        [destruct (byte_at (buf p) 4 =? _); cbn beta iota;
         [destruct (byte_at (buf p) 5 =? _); cbn beta iota|]|];
        cbn [fst]; tauto.
Qed.

Lemma probe_accepts_exactly_stl_witness :
  100 <> 0 /\
  ((fst (ebustl_probe 100 {| buf := cstr "123STL7"; buf_size := 7 |}) = 100
    <-> 5 <= buf_size {| buf := cstr "123STL7"; buf_size := 7 |}
        /\ byte_at (buf {| buf := cstr "123STL7"; buf_size := 7 |}) 3 = 83
        /\ byte_at (buf {| buf := cstr "123STL7"; buf_size := 7 |}) 4 = 84
        /\ byte_at (buf {| buf := cstr "123STL7"; buf_size := 7 |}) 5 = 76)
   /\ (fst (ebustl_probe 100 {| buf := cstr "123STL7"; buf_size := 7 |}) = 0
       \/ fst (ebustl_probe 100 {| buf := cstr "123STL7"; buf_size := 7 |})
          = 100)
   /\ (ebustl_probe 100 {| buf := cstr "123STL7"; buf_size := 7 |} = (0, [])
       \/ 5 <= buf_size {| buf := cstr "123STL7"; buf_size := 7 |})).
Proof.
  split; [lia|].
  apply (probe_accepts_exactly_stl 100 {| buf := cstr "123STL7"; buf_size := 7 |}).
  lia.
Defined.

(** ** Timecodes *)

Lemma pts_of_bytes (h m s f : Z) (rest : list Z) :
  is_uint8 h -> is_uint8 m -> is_uint8 s -> is_uint8 f ->
  ebustl_timestamp_to_pts (h :: m :: s :: f :: rest)
  = ((h - 10) * 3600 + m * 60 + s) * 1000 + f * 40.
Proof.
  unfold is_uint8. intros Hh Hm Hs Hf.
  unfold ebustl_timestamp_to_pts, byte_at. cbn [nth].
  change (Z.quot 1000 25) with 40.
  rewrite (wrap_int_small 40) by lia.
  rewrite (wrap_int_small (h - 10)) by lia.
  rewrite (wrap_int_small (f * 40)) by lia.
  rewrite (wrap_int64_small ((h - 10) * 3600)) by lia.
  rewrite (wrap_int64_small (m * 60)) by lia.
  rewrite (wrap_int64_small ((h - 10) * 3600 + m * 60)) by lia.
  rewrite (wrap_int64_small ((h - 10) * 3600 + m * 60 + s)) by lia.
  rewrite (wrap_int64_small (((h - 10) * 3600 + m * 60 + s) * 1000)) by lia.
  rewrite wrap_int64_small by lia.
  reflexivity.
Qed.

(** X3.  Raising any of the four timecode bytes, the others kept or raised
    too, never lowers the timestamp, and two such timecodes have the same
    timestamp only when they are the same. *)
Theorem timestamp_monotone (h m s f h' m' s' f' : Z) :
  Forall is_uint8 [h; m; s; f; h'; m'; s'; f'] ->
  h <= h' -> m <= m' -> s <= s' -> f <= f' ->
  ebustl_timestamp_to_pts [h; m; s; f] <= ebustl_timestamp_to_pts [h'; m'; s'; f']
  /\ (ebustl_timestamp_to_pts [h; m; s; f] = ebustl_timestamp_to_pts [h'; m'; s'; f']
      <-> (h, m, s, f) = (h', m', s', f')).
Proof.
  intros Hb Hh Hm Hs Hf.
  repeat (apply Forall_cons_1 in Hb as [? Hb]).
  rewrite !pts_of_bytes by assumption.
  split; [lia|]. split.
  - intros Heq.
    assert (h = h' /\ m = m' /\ s = s' /\ f = f') as (-> & -> & -> & ->) by lia.
    reflexivity.
  - intros [= -> -> -> ->]. reflexivity.
Qed.

Lemma timestamp_monotone_witness :
  Forall is_uint8 [10; 0; 5; 0; 10; 0; 7; 0] /\ 10 <= 10 /\ 0 <= 0 /\ 5 <= 7
  /\ 0 <= 0 /\
  (ebustl_timestamp_to_pts [10; 0; 5; 0] <= ebustl_timestamp_to_pts [10; 0; 7; 0]
   /\ (ebustl_timestamp_to_pts [10; 0; 5; 0] = ebustl_timestamp_to_pts [10; 0; 7; 0]
       <-> (10, 0, 5, 0) = (10, 0, 7, 0))).
Proof.
  assert (Forall is_uint8 [10; 0; 5; 0; 10; 0; 7; 0]) as Hb
    by (repeat constructor; unfold is_uint8; lia).
  split; [exact Hb|]. repeat (split; [lia|]).
  apply (timestamp_monotone 10 0 5 0 10 0 7 0 Hb); lia.
Defined.

(** X4.  On timecodes whose minutes and seconds are below 60 and whose
    frames are below 25, the timestamp orders timecodes as the tuple
    (hours, minutes, seconds, frames) does, so different timecodes have
    different timestamps. *)
Theorem timestamp_orders_nominal_timecodes (h m s f h' m' s' f' : Z) :
  is_uint8 h -> is_uint8 h' ->
  0 <= m < 60 -> 0 <= s < 60 -> 0 <= f < 25 ->
  0 <= m' < 60 -> 0 <= s' < 60 -> 0 <= f' < 25 ->
  (ebustl_timestamp_to_pts [h; m; s; f] < ebustl_timestamp_to_pts [h'; m'; s'; f']
   <-> h < h' \/ (h = h' /\ (m < m' \/ (m = m' /\ (s < s' \/ (s = s' /\ f < f'))))))
  /\ (ebustl_timestamp_to_pts [h; m; s; f] = ebustl_timestamp_to_pts [h'; m'; s'; f']
      <-> (h, m, s, f) = (h', m', s', f')).
Proof.
  intros Hh Hh' Hm Hs Hf Hm' Hs' Hf'.
  rewrite !pts_of_bytes by (unfold is_uint8 in *; lia).
  unfold is_uint8 in *. split; [lia|]. split.
  - intros Heq.
    assert (h = h' /\ m = m' /\ s = s' /\ f = f') as (-> & -> & -> & ->) by lia.
    reflexivity.
  - intros [= -> -> -> ->]. reflexivity.
Qed.

Lemma timestamp_orders_nominal_timecodes_witness :
  is_uint8 10 /\ is_uint8 10 /\ 0 <= 59 < 60 /\ 0 <= 59 < 60 /\ 0 <= 24 < 25
  /\ 0 <= 0 < 60 /\ 0 <= 0 < 60 /\ 0 <= 0 < 25 /\
  ((ebustl_timestamp_to_pts [10; 59; 59; 24] < ebustl_timestamp_to_pts [10; 0; 0; 0]
    <-> 10 < 10 \/ (10 = 10 /\ (59 < 0 \/ (59 = 0 /\ (59 < 0 \/ (59 = 0 /\ 24 < 0))))))
   /\ (ebustl_timestamp_to_pts [10; 59; 59; 24] = ebustl_timestamp_to_pts [10; 0; 0; 0]
       <-> (10, 59, 59, 24) = (10, 0, 0, 0))).
Proof.
  unfold is_uint8. repeat (split; [lia|]).
  apply (timestamp_orders_nominal_timecodes 10 59 59 24 10 0 0 0);
    unfold is_uint8; lia.
Defined.

(** ** The transcoder *)

Lemma map_iso6937_None_lead (d base : Z) :
  d <> 0xC1 -> d <> 0xC2 -> d <> 0xC3 -> d <> 0xC8 ->
  map_iso6937_to_utf8 d base = None.
Proof.
  intros H1 H2 H3 H8. unfold map_iso6937_to_utf8.
  repeat case_match; try reflexivity; subst; contradiction.
Qed.

Lemma map_iso6937_None_base (d base : Z) :
  ~ In base vowels -> map_iso6937_to_utf8 d base = None.
Proof.
  intros H. destruct (map_iso6937_to_utf8 d base) eqn:E; [|reflexivity].
  apply map_iso6937_Some_vowel in E. contradiction.
Qed.

Lemma utf8_of_unsupported (input : list Z) :
  Forall (fun b => b <> 0xC1 /\ b <> 0xC2 /\ b <> 0xC3 /\ b <> 0xC8) input ->
  utf8_of input = input.
Proof.
  induction 1 as [|b input (H1 & H2 & H3 & H8) _ IH]; [reflexivity|].
  rewrite utf8_of_cons, IH.
  destruct ((0xC1 <=? b) && (b <=? 0xCF)); [|reflexivity].
  destruct input as [|c input']; [reflexivity|].
  rewrite map_iso6937_None_lead by assumption. reflexivity.
Qed.

(** The conversion of a concatenation splits where the second part does
    not start with a base letter of the table. *)
Lemma utf8_of_app_split (b : list Z) (n : nat) :
  match b with
  | c :: _ => ~ In (char_of_uchar c) vowels
  | [] => True
  end ->
  forall a : list Z, (length a <= n)%nat ->
    utf8_of (a ++ b) = utf8_of a ++ utf8_of b.
Proof.
  intros Hb. induction n as [|n IH]; intros a Hn.
  - destruct a; [reflexivity|cbn in Hn; lia].
  - destruct a as [|x a1]; [reflexivity|]. cbn [length] in Hn.
    rewrite <- app_comm_cons.
    rewrite (utf8_of_cons x (a1 ++ b)), (utf8_of_cons x a1).
    rewrite (IH a1) by lia.
    destruct ((0xC1 <=? x) && (x <=? 0xCF)); [|reflexivity].
    destruct a1 as [|y a2].
    + cbn [app]. destruct b as [|c b']; [reflexivity|].
      rewrite (map_iso6937_None_base x _ Hb). reflexivity.
    + rewrite <- app_comm_cons.
      destruct (map_iso6937_to_utf8 x (char_of_uchar y)) as [u|]; [|reflexivity].
      rewrite IH by (cbn [length] in Hn; lia).
      rewrite app_assoc. reflexivity.
Qed.

Lemma utf8_of_nonzero (n : nat) :
  forall input : list Z, (length input <= n)%nat ->
    Forall (fun b => b <> 0) input -> Forall (fun b => b <> 0) (utf8_of input).
Proof.
  induction n as [|n IH]; intros input Hn Hnz.
  - destruct input; [constructor|cbn in Hn; lia].
  - destruct input as [|d rest1]; [constructor|]. cbn [length] in Hn.
    apply Forall_cons_1 in Hnz as [Hd Hrest1].
    assert (Forall (fun b => b <> 0) (d :: utf8_of rest1)) as Hlit.
    { constructor; [exact Hd|]. apply IH; [lia|exact Hrest1]. }
    rewrite utf8_of_cons.
    destruct ((0xC1 <=? d) && (d <=? 0xCF)); [|exact Hlit].
    destruct rest1 as [|b rest2]; [exact Hlit|].
    destruct (map_iso6937_to_utf8 d (char_of_uchar b)) as [u|] eqn:Hu;
      [|exact Hlit].
    apply map_iso6937_two_bytes in Hu as (x & -> & Hx).
    apply Forall_cons_1 in Hrest1 as [_ Hrest2].
    cbn [app]. constructor; [lia|]. constructor; [lia|].
    apply IH; [cbn [length] in Hn; lia|exact Hrest2].
Qed.

(** X5.  For an input of at least one byte, every byte the converter
    writes, the terminator included, lies inside the [length * 4] bytes it
    allocates, and even inside the first [length + 1] bytes. *)
Theorem convert_writes_inside_allocation (input : list Z) (n : nat) :
  (1 <= n)%nat ->
  within (out_len n) (convert_iso6937_to_utf8 input n)
  /\ within (S n) (convert_iso6937_to_utf8 input n).
Proof.
  intros Hn. split; [apply convert_within_nonempty, Hn|].
  intros k. rewrite convert_footprint, elem_of_set_seq. intros [_ Hk].
  pose proof (length_utf8_of _ (take n input) (Nat.le_refl _)) as Hlen.
  rewrite length_take in Hlen. lia.
Qed.

Lemma convert_writes_inside_allocation_witness :
  (1 <= 3)%nat /\
  (within (out_len 3) (convert_iso6937_to_utf8 [0xC2; 0x65; 0x21] 3)
   /\ within (S 3) (convert_iso6937_to_utf8 [0xC2; 0x65; 0x21] 3)).
Proof.
  split; [lia|].
  apply (convert_writes_inside_allocation [0xC2; 0x65; 0x21] 3). lia.
Defined.

(** X6.  The buffer the converter returns holds the converted bytes from
    offset 0 on, one NUL after them and nothing else; the converted text is
    never longer than the input. *)
Theorem convert_buffer_layout (input : list Z) :
  contents (convert_iso6937_to_utf8 input (length input))
  = transcoded input ++ [0]
  /\ dom (convert_iso6937_to_utf8 input (length input))
     = set_seq 0 (S (length (transcoded input)))
  /\ (length (transcoded input) <= length input)%nat.
Proof.
  rewrite transcoded_utf8_of, convert_footprint, convert_buffer, firstn_all.
  rewrite contents_map_seq.
  split; [reflexivity|]. split; [reflexivity|].
  apply (length_utf8_of (length input)). lia.
Qed.

(** X7.  An input without the four lead bytes of the table (0xC1, 0xC2,
    0xC3 and 0xC8) is copied byte for byte: bytes above 0xCF and the
    diacritics that have no table are left as they are, whatever follows
    them. *)
Theorem bytes_without_table_unchanged (input : list Z) :
  Forall (fun b => b <> 0xC1 /\ b <> 0xC2 /\ b <> 0xC3 /\ b <> 0xC8) input ->
  transcoded input = input.
Proof.
  intros H. rewrite transcoded_utf8_of. apply utf8_of_unsupported, H.
Qed.

Lemma bytes_without_table_unchanged_witness :
  Forall (fun b => b <> 0xC1 /\ b <> 0xC2 /\ b <> 0xC3 /\ b <> 0xC8)
    [0xC4; 0x65; 0xCF; 0x41; 0xE9; 0x00]
  /\ transcoded [0xC4; 0x65; 0xCF; 0x41; 0xE9; 0x00]
     = [0xC4; 0x65; 0xCF; 0x41; 0xE9; 0x00].
Proof.
  assert (Forall (fun b => b <> 0xC1 /\ b <> 0xC2 /\ b <> 0xC3 /\ b <> 0xC8)
            [0xC4; 0x65; 0xCF; 0x41; 0xE9; 0x00]) as H
    by (repeat constructor; lia).
  split; [exact H|].
  apply (bytes_without_table_unchanged [0xC4; 0x65; 0xCF; 0x41; 0xE9; 0x00] H).
Defined.

(** X8.  Converting a text in two pieces gives the same bytes as converting
    it at once, when the second piece is empty or starts with a byte that
    is not one of the ten base letters. *)
Theorem transcoded_app (a b : list Z) :
  match b with
  | c :: _ => ~ In (char_of_uchar c) vowels
  | [] => True
  end ->
  transcoded (a ++ b) = transcoded a ++ transcoded b.
Proof.
  intros Hb. rewrite !transcoded_utf8_of.
  apply (utf8_of_app_split b (length a) Hb a). lia.
Qed.

Lemma transcoded_app_witness :
  match cstr " na" ++ [0xC8; 0x69] ++ cstr "ve" with
  | c :: _ => ~ In (char_of_uchar c) vowels
  | [] => True
  end
  /\ transcoded (cstr "caf" ++ [0xC2; 0x65]
                 ++ (cstr " na" ++ [0xC8; 0x69] ++ cstr "ve"))
     = transcoded (cstr "caf" ++ [0xC2; 0x65])
       ++ transcoded (cstr " na" ++ [0xC8; 0x69] ++ cstr "ve").
Proof.
  assert (match cstr " na" ++ [0xC8; 0x69] ++ cstr "ve" with
          | c :: _ => ~ In (char_of_uchar c) vowels
          | [] => True
          end) as H.
  { cbn. intros Hin. repeat destruct Hin as [Hin|Hin]; try discriminate.
    exact Hin. }
  split; [exact H|].
  rewrite app_assoc.
  apply (transcoded_app (cstr "caf" ++ [0xC2; 0x65])
           (cstr " na" ++ [0xC8; 0x69] ++ cstr "ve") H).
Defined.

(** X9.  For an input without a zero byte, the C string a caller reads from
    the returned buffer is the whole converted text, and it holds no zero
    byte. *)
Theorem c_string_is_transcoded (input : list Z) :
  Forall (fun b => b <> 0) input ->
  c_string (convert_iso6937_to_utf8 input (length input)) = transcoded input
  /\ Forall (fun b => b <> 0) (transcoded input).
Proof.
  intros H. rewrite transcoded_utf8_of, convert_buffer, firstn_all.
  pose proof (utf8_of_nonzero _ input (Nat.le_refl _) H) as Hnz.
  split; [apply c_string_map_seq, Hnz|exact Hnz].
Qed.

Lemma c_string_is_transcoded_witness :
  Forall (fun b => b <> 0) [0x63; 0xC2; 0x65; 0xC2]
  /\ (c_string (convert_iso6937_to_utf8 [0x63; 0xC2; 0x65; 0xC2]
                  (length [0x63; 0xC2; 0x65; 0xC2]))
      = transcoded [0x63; 0xC2; 0x65; 0xC2]
      /\ Forall (fun b => b <> 0) (transcoded [0x63; 0xC2; 0x65; 0xC2])).
Proof.
  assert (Forall (fun b => b <> 0) [0x63; 0xC2; 0x65; 0xC2]) as H
    by (repeat constructor; lia).
  split; [exact H|].
  apply (c_string_is_transcoded [0x63; 0xC2; 0x65; 0xC2] H).
Defined.

(** ** The colour scan *)

Lemma for_each_ext {S : Type} (indices : list nat)
    (body body' : nat -> S -> flow S) (st : S) :
  (forall i st, In i indices -> body i st = body' i st) ->
  for_each indices body st = for_each indices body' st.
Proof.
  revert st. induction indices as [|i indices IH]; intros st H; [reflexivity|].
  cbn [for_each]. rewrite (H i st) by (left; reflexivity).
  destruct (body' i st); [|reflexivity].
  apply IH. intros j st' Hj. apply H. right. exact Hj.
Qed.

Lemma in_color_scan_offsets (i : nat) :
  In i color_scan_offsets <-> (16 <= i < 128)%nat.
Proof.
  unfold color_scan_offsets, TTI_TEXT_FIELD_OFFSET, TTI_TEXT_FIELD_LENGTH.
  rewrite in_seq. lia.
Qed.

Lemma extract_colors_local (buf buf' : list Z) (line_count : Z) :
  (forall i, (16 <= i < 128)%nat -> byte_at buf i = byte_at buf' i) ->
  extract_colors_from_tti buf line_count = extract_colors_from_tti buf' line_count.
Proof.
  intros H. unfold extract_colors_from_tti.
  rewrite (for_each_ext color_scan_offsets (extract_colors_body buf line_count)
             (extract_colors_body buf' line_count)); [reflexivity|].
  intros i st Hi. apply in_color_scan_offsets in Hi.
  unfold extract_colors_body. rewrite (H i Hi). reflexivity.
Qed.

(** X10.  The two colours the scan returns are between 0 and 7 for every
    buffer and every line number, and they depend on the bytes at offsets
    16 to 127 only. *)
Theorem colors_in_range_and_local (buf buf' : list Z) (line_count : Z) :
  take 112 (drop 16 buf) = take 112 (drop 16 buf') ->
  extract_colors_from_tti buf line_count = extract_colors_from_tti buf' line_count
  /\ 0 <= fst (extract_colors_from_tti buf line_count) <= 7
  /\ 0 <= snd (extract_colors_from_tti buf line_count) <= 7.
Proof.
  intros Hfield. split; [|apply extract_colors_in_range].
  apply extract_colors_local. intros i Hi. unfold byte_at.
  rewrite !nth_lookup. f_equal.
  assert (forall l : list Z, l !! i = take 112 (drop 16 l) !! (i - 16)%nat) as E.
  { intros l. rewrite lookup_take_lt by lia. rewrite lookup_drop.
    f_equal. lia. }
  rewrite (E buf), (E buf'), Hfield. reflexivity.
Qed.

Lemma colors_in_range_and_local_witness :
  take 112 (drop 16 block_hi) = take 112 (drop 16 (tti (head 50 3) (cstr "HI")))
  /\ (extract_colors_from_tti block_hi 0
      = extract_colors_from_tti (tti (head 50 3) (cstr "HI")) 0
      /\ 0 <= fst (extract_colors_from_tti block_hi 0) <= 7
      /\ 0 <= snd (extract_colors_from_tti block_hi 0) <= 7).
Proof.
  split; [reflexivity|].
  apply (colors_in_range_and_local block_hi (tti (head 50 3) (cstr "HI")) 0).
  reflexivity.
Defined.

(** One iteration of the colour scan on the requested line. *)
Lemma extract_colors_body_on_line (buf : list Z) (lc : Z) (i : nat)
    (st : color_scan) :
  current_line st = lc -> - 2 ^ 31 <= lc -> lc + 1 < 2 ^ 31 ->
  extract_colors_body buf lc i st
  = if byte_at buf i =? 0x8A then
      Break {| text_color := text_color st;
               background_color := background_color st;
               current_line := lc + 1 |}
    else
      Continue {| text_color :=
                    fst (apply_color (text_color st, background_color st)
                           (byte_at buf i));
                  background_color :=
                    snd (apply_color (text_color st, background_color st)
                           (byte_at buf i));
                  current_line := lc |}.
Proof.
  intros Hcl Hlo Hhi. unfold extract_colors_body, apply_color.
  rewrite Hcl. rewrite wrap_int_small by lia.
  destruct (byte_at buf i =? 0x8A).
  - destruct (Z.gtb_spec (lc + 1) lc); [reflexivity|lia].
  - rewrite Hcl, Z.eqb_refl.
    destruct ((0 <=? byte_at buf i) && (byte_at buf i <=? 7));
      [reflexivity|].
    destruct ((16 <=? byte_at buf i) && (byte_at buf i <=? 23));
      [reflexivity|].
    cbn [fst snd]. destruct st; cbn in *; subst; reflexivity.
Qed.

(** One iteration of the colour scan before the requested line. *)
Lemma extract_colors_body_before_line (buf : list Z) (lc : Z) (i : nat)
    (st : color_scan) :
  - 2 ^ 31 <= current_line st -> current_line st < lc -> lc < 2 ^ 31 ->
  extract_colors_body buf lc i st
  = if byte_at buf i =? 0x8A then
      Continue {| text_color := 0; background_color := 7;
                  current_line := current_line st + 1 |}
    else Continue st.
Proof.
  intros Hlo Hlt Hhi. unfold extract_colors_body.
  rewrite wrap_int_small by lia.
  destruct (Z.eqb_spec (byte_at buf i) 0x8A) as [E|E].
  - destruct (Z.gtb_spec (current_line st + 1) lc); [lia|].
    cbn [current_line]. rewrite E.
    destruct (current_line st + 1 =? lc); reflexivity.
  - destruct (Z.eqb_spec (current_line st) lc); [lia|reflexivity].
Qed.

Lemma colors_scan_on_line (buf : list Z) (lc : Z) :
  - 2 ^ 31 <= lc -> lc + 1 < 2 ^ 31 ->
  forall (indices : list nat) (st : color_scan),
    current_line st = lc ->
    (text_color (for_each indices (extract_colors_body buf lc) st),
     background_color (for_each indices (extract_colors_body buf lc) st))
    = fold_left apply_color (nth_line 0 (byte_at buf <$> indices))
        (text_color st, background_color st).
Proof.
  intros Hlo Hhi. induction indices as [|i indices IH]; intros st Hcl;
    [reflexivity|].
  cbn [for_each fmap list_fmap nth_line].
  rewrite extract_colors_body_on_line by assumption.
  destruct (byte_at buf i =? 0x8A); [reflexivity|].
  rewrite IH by reflexivity. cbn [text_color background_color fold_left].
  rewrite <- surjective_pairing. reflexivity.
Qed.

Lemma colors_scan_before_line (buf : list Z) (k : nat) :
  forall (indices : list nat) (st : color_scan) (cl : nat),
    current_line st = Z.of_nat cl -> (cl < k)%nat ->
    Z.of_nat cl + Z.of_nat (length indices) < 2 ^ 31 - 1 ->
    text_color st = 0 -> background_color st = 7 ->
    (text_color (for_each indices (extract_colors_body buf (Z.of_nat k)) st),
     background_color (for_each indices (extract_colors_body buf (Z.of_nat k)) st))
    = fold_left apply_color (nth_line (k - cl) (byte_at buf <$> indices)) (0, 7).
Proof.
  induction indices as [|i indices IH]; intros st cl Hcl Hlt Hlen Ht Hb.
  - cbn. rewrite Ht, Hb. reflexivity.
  - cbn [length] in Hlen. cbn [for_each fmap list_fmap nth_line].
    destruct (Z.lt_ge_cases (Z.of_nat k) (2 ^ 31)) as [Hk|Hk].
    + rewrite extract_colors_body_before_line by lia.
      destruct (k - cl)%nat as [|d] eqn:Hd; [lia|].
      destruct (byte_at buf i =? 0x8A).
      * destruct (decide (S cl = k)) as [E|E].
        -- replace d with 0%nat by lia.
           rewrite (colors_scan_on_line buf (Z.of_nat k)) by (cbn; lia).
           reflexivity.
        -- rewrite (IH _ (S cl)) by (cbn; lia).
           replace (k - S cl)%nat with d by lia. reflexivity.
      * rewrite (IH _ cl) by (assumption || lia).
        rewrite Hd. reflexivity.
    + (* the requested line number is beyond every line the scan can reach *)
      assert (extract_colors_body buf (Z.of_nat k) i st
              = if byte_at buf i =? 0x8A then
                  Continue {| text_color := 0; background_color := 7;
                              current_line := current_line st + 1 |}
                else Continue st) as Hbody.
      { unfold extract_colors_body. rewrite wrap_int_small by lia.
        destruct (Z.eqb_spec (byte_at buf i) 0x8A) as [E|E].
        - destruct (Z.gtb_spec (current_line st + 1) (Z.of_nat k)); [lia|].
          cbn [current_line].
          destruct (Z.eqb_spec (current_line st + 1) (Z.of_nat k)); [lia|].
          reflexivity.
        - destruct (Z.eqb_spec (current_line st) (Z.of_nat k)); [lia|].
          reflexivity. }
      rewrite Hbody.
      destruct (k - cl)%nat as [|d] eqn:Hd; [lia|].
      destruct (byte_at buf i =? 0x8A).
      * rewrite (IH _ (S cl)) by (cbn; lia).
        replace (k - S cl)%nat with d by lia. reflexivity.
      * rewrite (IH _ cl) by (assumption || lia).
        rewrite Hd. reflexivity.
Qed.

Lemma colors_scan_negative_line (buf : list Z) (lc : Z) :
  lc < 0 ->
  forall (indices : list nat) (st : color_scan),
    0 <= current_line st ->
    current_line st + Z.of_nat (length indices) < 2 ^ 31 - 1 ->
    text_color st = 0 -> background_color st = 7 ->
    (text_color (for_each indices (extract_colors_body buf lc) st),
     background_color (for_each indices (extract_colors_body buf lc) st))
    = (0, 7).
Proof.
  intros Hneg. induction indices as [|i indices IH]; intros st Hcl Hlen Ht Hb.
  - cbn. rewrite Ht, Hb. reflexivity.
  - cbn [length] in Hlen. cbn [for_each].
    unfold extract_colors_body. rewrite wrap_int_small by lia.
    destruct (byte_at buf i =? 0x8A).
    + destruct (Z.gtb_spec (current_line st + 1) lc); [|lia].
      cbn [text_color background_color]. rewrite Ht, Hb. reflexivity.
    + destruct (Z.eqb_spec (current_line st) lc); [lia|].
      apply IH; (assumption || lia).
Qed.

(** X11.  The colours of a line are those set by the colour codes of that
    line alone, starting from white on black: the scan returns the result
    of applying, in order, the bytes between the line's two line breaks.
    A line that does not exist, or a negative line number, gives the
    default pair (0, 7). *)
Theorem colors_of_requested_line (buf : list Z) (line_count : Z) :
  extract_colors_from_tti buf line_count
  = if line_count <? 0 then (0, 7)
    else fold_left apply_color
           (nth_line (Z.to_nat line_count) (color_field buf)) (0, 7).
Proof.
  unfold extract_colors_from_tti, color_field.
  destruct (Z.ltb_spec line_count 0) as [Hneg|Hpos].
  - apply colors_scan_negative_line; cbn; lia.
  - rewrite <- (Z2Nat.id line_count) at 1 2 by exact Hpos.
    destruct (Z.to_nat line_count) as [|k] eqn:Hk.
    + apply (colors_scan_on_line buf 0); cbn; lia.
    + rewrite (colors_scan_before_line buf (S k) color_scan_offsets _ 0)
        by (cbn; lia).
      reflexivity.
Qed.

(** ** The decode loop on a packet of several blocks *)

Lemma decode_loop_blocks (fuel : nat) :
  forall (buf : list Z) (buf_size : Z) (st : decode_state),
    buf_size < 128 * (Z.of_nat fuel + 1) ->
    - 2 ^ 31 <= readorder st ->
    readorder st + Z.of_nat (Z.to_nat (buf_size / 128)) < 2 ^ 31 ->
    decode_loop fuel buf buf_size st
    = Some {| rects :=
                rects st
                ++ ((fun i => (block_text (drop (128 * i) buf),
                               readorder st + Z.of_nat i))
                      <$> seq 0 (Z.to_nat (buf_size / 128)));
              readorder := readorder st + Z.of_nat (Z.to_nat (buf_size / 128));
              got_sub_ptr := if 128 <=? buf_size then 1 else got_sub_ptr st |}.
Proof.
  induction fuel as [|fuel IH]; intros buf buf_size st Hfuel Hlo Hhi.
  - rewrite decode_loop_exit by lia.
    assert (buf_size / 128 <= 0) as Hq
      by (apply Z.lt_succ_r, Z.div_lt_upper_bound; lia).
    replace (Z.to_nat (buf_size / 128)) with 0%nat by lia.
    destruct (Z.leb_spec 128 buf_size); [lia|].
    cbn [seq fmap list_fmap]. rewrite app_nil_r, Z.add_0_r.
    destruct st; reflexivity.
  - destruct (Z.lt_ge_cases buf_size 128) as [Hlt|Hge].
    + rewrite decode_loop_exit by lia.
      assert (buf_size / 128 <= 0) as Hq
        by (apply Z.lt_succ_r, Z.div_lt_upper_bound; lia).
      replace (Z.to_nat (buf_size / 128)) with 0%nat by lia.
      destruct (Z.leb_spec 128 buf_size); [lia|].
      cbn [seq fmap list_fmap]. rewrite app_nil_r, Z.add_0_r.
      destruct st; reflexivity.
    + pose proof (extract_text_never_empty buf 128) as Hne.
      destruct (extract_text_and_colors_from_tti_block buf 128)
        as [|c text] eqn:Htext; [congruence|].
      rewrite (decode_loop_block _ _ _ _ c text) by (lia || exact Htext).
      assert (buf_size / 128 = (buf_size - 128) / 128 + 1) as Hq.
      { replace buf_size with ((buf_size - 128) + 1 * 128) at 1 by lia.
        rewrite Z.div_add by lia. reflexivity. }
      assert (0 <= (buf_size - 128) / 128) as Hq0
        by (apply Z.div_pos; lia).
      assert (Z.to_nat (buf_size / 128) = S (Z.to_nat ((buf_size - 128) / 128)))
        as Hn by lia.
      rewrite Hn in *.
      rewrite IH; cbn [rects readorder got_sub_ptr];
        try rewrite wrap_int_small by lia; try lia.
      destruct (Z.leb_spec 128 buf_size); [|lia].
      f_equal. f_equal.
      * rewrite <- app_assoc. f_equal.
        rewrite <- cons_seq, fmap_cons. cbn [app]. f_equal.
        -- unfold block_text. change (128 * 0)%nat with 0%nat.
           rewrite drop_0, Z.add_0_r.
           change Avcodec.TTI_BLOCK_SIZE with 128. rewrite Htext. reflexivity.
        -- rewrite <- fmap_S_seq, <- list_fmap_compose.
           apply list_fmap_ext. intros _ i _. unfold compose.
           rewrite drop_drop.
           replace (128 + 128 * i)%nat with (128 * S i)%nat by lia.
           replace (readorder st + 1 + Z.of_nat i)
             with (readorder st + Z.of_nat (S i)) by lia.
           reflexivity.
      * lia.
      * destruct (128 <=? buf_size - 128); reflexivity.
Qed.

(** X12.  A packet yields one cue for each full block of 128 bytes it
    holds, in the order of the blocks: the cue of block [i] carries the
    alignment tag, the markup and the border tag of that block and the read
    order [r + i]; no block is skipped, the bytes after the last full block
    are ignored, and the read order advances by the number of blocks. *)
Theorem decode_frame_cues (r : Z) (avpkt : AVPacket) :
  - 2 ^ 31 <= r ->
  r + Z.of_nat (Z.to_nat (data_size avpkt / 128)) < 2 ^ 31 ->
  ebustl_decode_frame r avpkt
  = Some {| rects :=
              (fun i => (block_text (drop (128 * i) (data avpkt)),
                         r + Z.of_nat i))
                <$> seq 0 (Z.to_nat (data_size avpkt / 128));
            readorder := r + Z.of_nat (Z.to_nat (data_size avpkt / 128));
            got_sub_ptr := if 128 <=? data_size avpkt then 1 else 0 |}.
Proof.
  intros Hlo Hhi. unfold ebustl_decode_frame.
  rewrite decode_loop_blocks; cbn [rects readorder got_sub_ptr];
    [reflexivity|lia|exact Hlo|exact Hhi].
Qed.

Lemma decode_frame_cues_witness :
  - 2 ^ 31 <= 7
  /\ 7 + Z.of_nat (Z.to_nat (data_size {| data := block_hi ++ block_empty ++ [1; 2; 3];
                                           data_size := 259 |} / 128)) < 2 ^ 31
  /\ ebustl_decode_frame 7 {| data := block_hi ++ block_empty ++ [1; 2; 3];
                              data_size := 259 |}
     = Some {| rects :=
                 (fun i => (block_text
                              (drop (128 * i)
                                 (data {| data := block_hi ++ block_empty ++ [1; 2; 3];
                                          data_size := 259 |})),
                            7 + Z.of_nat i))
                   <$> seq 0 (Z.to_nat (data_size {| data := block_hi ++ block_empty
                                                            ++ [1; 2; 3];
                                                     data_size := 259 |} / 128));
               readorder :=
                 7 + Z.of_nat (Z.to_nat (data_size {| data := block_hi ++ block_empty
                                                           ++ [1; 2; 3];
                                                     data_size := 259 |} / 128));
               got_sub_ptr :=
                 if 128 <=? data_size {| data := block_hi ++ block_empty ++ [1; 2; 3];
                                         data_size := 259 |}
                 then 1 else 0 |}.
Proof.
  split; [lia|]. split; [reflexivity|].
  apply (decode_frame_cues 7 {| data := block_hi ++ block_empty ++ [1; 2; 3];
                                data_size := 259 |}); [lia|reflexivity].
Defined.

(** ** The text scan *)

Lemma color_chains_ignore_prev (c : Z) (prev : option cstring) :
  0 <= c <= 7 ->
  text_color_str_next c prev = text_color_str_next c None
  /\ text_color_str_first c prev = text_color_str_first c None
  /\ border_color_of c prev = border_color_of c None.
Proof.
  intros H.
  assert (c = 0 \/ c = 1 \/ c = 2 \/ c = 3 \/ c = 4 \/ c = 5 \/ c = 6 \/ c = 7)
    as Hc by lia.
  repeat destruct Hc as [->|Hc]; try subst c; repeat split; reflexivity.
Qed.

Lemma next_tags_any_prev (tti_block : list Z) (lc : Z)
    (prev_text prev_border : option cstring) :
  fmt_s (text_color_str_next (fst (extract_colors_from_tti tti_block lc)) prev_text)
    ++ fmt_s (border_color_of (snd (extract_colors_from_tti tti_block lc))
                prev_border)
  = next_tags tti_block lc.
Proof.
  unfold next_tags.
  pose proof (extract_colors_in_range tti_block lc) as [Ht Hb].
  destruct (extract_colors_from_tti tti_block lc) as [tc bc]. cbn [fst snd] in *.
  destruct (color_chains_ignore_prev tc prev_text Ht) as (-> & _ & _).
  destruct (color_chains_ignore_prev bc prev_border Hb) as (_ & _ & ->).
  reflexivity.
Qed.

(** What [append_line] does to a state whose line buffer holds [acc]. *)
Lemma append_line_piece (st : text_scan) (acc : list Z) :
  text_len st = length acc -> take (length acc) (line st) = acc ->
  Forall (fun b => b <> 0) acc ->
  append_line st
  = {| ass_string := ass_string st ++ line_piece acc (line_count st);
       line := <[length acc := 0]> (line st);
       text_len := length acc;
       line_count := line_count st;
       text_color_str := text_color_str st;
       border_color := border_color st |}.
Proof.
  intros Hlen Htake Hnz. unfold append_line. rewrite Hlen.
  rewrite convert_buffer.
  rewrite take_insert_ge by lia. rewrite Htake.
  rewrite c_string_map_seq
    by (apply (utf8_of_nonzero (length acc)); [lia|exact Hnz]).
  f_equal. unfold line_piece. destruct acc as [|b acc'].
  - cbn [length]. change (0 <? 0)%nat with false.
    rewrite andb_false_r, app_nil_r. reflexivity.
  - cbn [length]. change (0 <? S (length acc'))%nat with true.
    rewrite andb_true_r. destruct (line_count st >? 0); reflexivity.
Qed.

(** The loop and the code after it append [render] of the bytes scanned. *)
Lemma text_scan_render (tti_block : list Z) :
  forall (indices : list nat) (st : text_scan) (acc : list Z),
    text_len st = length acc -> take (length acc) (line st) = acc ->
    Forall (fun b => 32 <= b) acc ->
    (length acc + length indices <= length (line st))%nat ->
    ass_string (append_line (for_each indices (extract_text_body tti_block) st))
    = ass_string st
      ++ render tti_block (byte_at tti_block <$> indices) acc (line_count st).
Proof.
  induction indices as [|i indices IH]; intros st acc Hlen Htake Hacc Hroom.
  - cbn [for_each fmap list_fmap render].
    rewrite (append_line_piece st acc Hlen Htake)
      by (eapply Forall_impl; [exact Hacc|]; cbn; intros; lia).
    reflexivity.
  - cbn [length] in Hroom. cbn [for_each fmap list_fmap render].
    unfold extract_text_body.
    destruct (byte_at tti_block i =? 0x8A).
    + rewrite (append_line_piece st acc Hlen Htake)
        by (eapply Forall_impl; [exact Hacc|]; cbn; intros; lia).
      cbn [line_count ass_string line text_color_str border_color].
      rewrite (surjective_pairing
                 (extract_colors_from_tti tti_block (wrap_int (line_count st + 1)))).
      rewrite (IH _ []); cbn [ass_string line text_len line_count length];
        [|reflexivity|reflexivity|constructor|rewrite length_insert; lia].
      rewrite next_tags_any_prev, <- !app_assoc. reflexivity.
    + destruct (byte_at tti_block i =? 0x8F).
      * rewrite (append_line_piece st acc Hlen Htake)
          by (eapply Forall_impl; [exact Hacc|]; cbn; intros; lia).
        reflexivity.
      * destruct (Z.geb_spec (byte_at tti_block i) 32) as [Hge|Hlt].
        -- rewrite (IH _ (acc ++ [byte_at tti_block i]));
             cbn [ass_string line text_len line_count].
           ++ reflexivity.
           ++ rewrite Hlen, length_app. cbn [length]. lia.
           ++ rewrite Hlen, length_app. cbn [length].
              replace (length acc + 1)%nat with (S (length acc)) by lia.
              rewrite (take_S_r _ _ (byte_at tti_block i))
                by (apply list_lookup_insert_eq; lia).
              rewrite take_insert_ge by lia. rewrite Htake. reflexivity.
           ++ apply Forall_app. split; [exact Hacc|].
              constructor; [lia|constructor].
           ++ rewrite length_insert, length_app. cbn [length]. lia.
        -- apply IH; assumption || lia.
Qed.

(** The markup of a block: the tags of the first line, then what [render]
    gives for the bytes of the text scan. *)
Lemma extract_text_render (tti_block : list Z) (tti_block_size : Z) :
  extract_text_and_colors_from_tti_block tti_block tti_block_size
  = first_tags tti_block
    ++ render tti_block (text_field tti_block tti_block_size) [] 0.
Proof.
  unfold extract_text_and_colors_from_tti_block, first_tags, text_field.
  destruct (extract_colors_from_tti tti_block 0) as [tc bc].
  rewrite (text_scan_render tti_block _ _ []);
    cbn [ass_string line text_len line_count length]; try reflexivity.
  - constructor.
  - unfold text_scan_offsets. rewrite length_seq, length_replicate. lia.
Qed.

Lemma utf8_of_Forall (P : Z -> Prop) (n : nat) :
  P 0xC3 -> (forall x, 0x80 <= x <= 0xBF -> P x) ->
  forall input : list Z, (length input <= n)%nat ->
    Forall P input -> Forall P (utf8_of input).
Proof.
  intros HC3 Hx. induction n as [|n IH]; intros input Hn HP.
  - destruct input; [constructor|cbn in Hn; lia].
  - destruct input as [|d rest1]; [constructor|]. cbn [length] in Hn.
    apply Forall_cons_1 in HP as [Hd Hrest1].
    assert (Forall P (d :: utf8_of rest1)) as Hlit.
    { constructor; [exact Hd|]. apply IH; [lia|exact Hrest1]. }
    rewrite utf8_of_cons.
    destruct ((0xC1 <=? d) && (d <=? 0xCF)); [|exact Hlit].
    destruct rest1 as [|b rest2]; [exact Hlit|].
    destruct (map_iso6937_to_utf8 d (char_of_uchar b)) as [u|] eqn:Hu;
      [|exact Hlit].
    apply map_iso6937_two_bytes in Hu as (x & -> & Hrange).
    apply Forall_cons_1 in Hrest1 as [_ Hrest2].
    cbn [app]. constructor; [exact HC3|]. constructor; [apply Hx, Hrange|].
    apply IH; [cbn [length] in Hn; lia|exact Hrest2].
Qed.

Lemma tags_printable (c : Z) :
  0 <= c <= 7 ->
  Forall (fun b => 32 <= b) (fmt_s (text_color_str_first c None))
  /\ Forall (fun b => 32 <= b) (fmt_s (text_color_str_next c None))
  /\ Forall (fun b => 32 <= b) (fmt_s (border_color_of c None)).
Proof.
  intros H.
  assert (c = 0 \/ c = 1 \/ c = 2 \/ c = 3 \/ c = 4 \/ c = 5 \/ c = 6 \/ c = 7)
    as Hc by lia.
  repeat destruct Hc as [->|Hc]; try subst c;
    (split; [|split]); vm_compute; repeat constructor; discriminate.
Qed.

Lemma line_piece_printable (acc : list Z) (lc : Z) :
  Forall (fun b => 32 <= b) acc -> Forall (fun b => 32 <= b) (line_piece acc lc).
Proof.
  intros Hacc.
  assert (Forall (fun b => 32 <= b) (utf8_of acc)) as Hu.
  { apply (utf8_of_Forall _ (length acc)); [lia|intros; lia|lia|exact Hacc]. }
  unfold line_piece. destruct acc as [|b acc']; [constructor|].
  destruct (lc >? 0); [|exact Hu].
  apply Forall_app. split; [|exact Hu].
  vm_compute. repeat constructor; discriminate.
Qed.

Lemma next_tags_printable (tti_block : list Z) (lc : Z) :
  Forall (fun b => 32 <= b) (next_tags tti_block lc).
Proof.
  unfold next_tags.
  pose proof (extract_colors_in_range tti_block lc) as [Ht Hb].
  destruct (extract_colors_from_tti tti_block lc) as [tc bc]. cbn [fst snd] in *.
  apply Forall_app. split.
  - apply (tags_printable tc Ht).
  - apply (tags_printable bc Hb).
Qed.

Lemma render_printable (tti_block : list Z) :
  forall (bytes acc : list Z) (lc : Z),
    Forall (fun b => 32 <= b) acc ->
    Forall (fun b => 32 <= b) (render tti_block bytes acc lc).
Proof.
  induction bytes as [|c bytes IH]; intros acc lc Hacc; cbn [render].
  - apply line_piece_printable, Hacc.
  - destruct (c =? 0x8A).
    + apply Forall_app. split; [apply line_piece_printable, Hacc|].
      apply Forall_app. split; [apply next_tags_printable|].
      apply IH. constructor.
    + destruct (c =? 0x8F); [apply line_piece_printable, Hacc|].
      destruct (Z.geb_spec c 32).
      * apply IH. apply Forall_app. split; [exact Hacc|].
        constructor; [lia|constructor].
      * apply IH, Hacc.
Qed.

Lemma render_single_line (tti_block : list Z) :
  forall (bytes acc : list Z),
    Forall (fun b => b <> 0x8A) (before_end bytes) ->
    render tti_block bytes acc 0
    = utf8_of (acc ++ filter (fun b => 32 <= b) (before_end bytes)).
Proof.
  assert (forall acc, line_piece acc 0 = utf8_of acc) as Hpiece
    by (intros [|b acc]; reflexivity).
  induction bytes as [|c bytes IH]; intros acc Hno; cbn [render before_end].
  - cbn. rewrite app_nil_r. apply Hpiece.
  - cbn [before_end] in Hno.
    destruct (Z.eqb_spec c 0x8F) as [E|E].
    + subst c. change (143 =? 138) with false. cbv iota.
      cbn. rewrite app_nil_r. apply Hpiece.
    + apply Forall_cons_1 in Hno as [Hc Hno].
      destruct (Z.eqb_spec c 0x8A); [contradiction|].
      rewrite filter_cons.
      destruct (Z.geb_spec c 32).
      * rewrite decide_True by lia. rewrite IH by exact Hno.
        rewrite <- app_assoc. reflexivity.
      * rewrite decide_False by lia. apply IH, Hno.
Qed.

Lemma render_ext (tti_block tti_block' : list Z) :
  (forall lc, extract_colors_from_tti tti_block lc
              = extract_colors_from_tti tti_block' lc) ->
  forall (bytes acc : list Z) (lc : Z),
    render tti_block bytes acc lc = render tti_block' bytes acc lc.
Proof.
  intros Hc. induction bytes as [|c bytes IH]; intros acc lc; cbn [render];
    [reflexivity|].
  unfold next_tags. rewrite Hc, !IH. reflexivity.
Qed.

(** X13.  The markup of a block is the colour tags of the first line
    followed by what the scan of offsets 13 to [size - 1] adds: the bytes
    from 0x20 on are collected into the current line; a line break 0x8A
    closes the line, which adds its conversion (after the marker \N when it
    is not the first line, and nothing when it is empty) and then the colour
    tags of the next line; the end-of-text marker 0x8F or the end of the
    block closes the last line the same way and ends the scan; other bytes
    below 0x20 are dropped. *)
Theorem markup_is_rendered_lines (tti_block : list Z) (tti_block_size : Z) :
  extract_text_and_colors_from_tti_block tti_block tti_block_size
  = first_tags tti_block
    ++ render tti_block (byte_at tti_block <$> text_scan_offsets tti_block_size)
         [] 0.
Proof.
  unfold extract_text_and_colors_from_tti_block, first_tags.
  destruct (extract_colors_from_tti tti_block 0) as [tc bc].
  rewrite (text_scan_render tti_block _ _ []);
    cbn [ass_string line text_len line_count length]; try reflexivity.
  - constructor.
  - unfold text_scan_offsets. rewrite length_seq, length_replicate. lia.
Qed.

(** X14.  When no line break precedes the end of the text, the markup is
    the first line's colour tags followed by the conversion of the bytes
    from 0x20 on that stand before the first end-of-text marker, at
    offsets 13 to [size - 1]. *)
Theorem single_line_markup (tti_block : list Z) (tti_block_size : Z) :
  Forall (fun b => b <> 0x8A) (before_end (text_field tti_block tti_block_size)) ->
  extract_text_and_colors_from_tti_block tti_block tti_block_size
  = first_tags tti_block
    ++ transcoded (filter (fun b => 32 <= b)
                     (before_end (text_field tti_block tti_block_size))).
Proof.
  intros H. rewrite extract_text_render, transcoded_utf8_of.
  rewrite (render_single_line tti_block _ [] H). reflexivity.
Qed.

Lemma single_line_markup_witness :
  Forall (fun b => b <> 0x8A)
    (before_end (text_field (tti (head 5 2) ([0x01; 0xC2; 0x65; 0x0D] ++ cstr "t" ++ [0xC2]))
                   128))
  /\ extract_text_and_colors_from_tti_block
       (tti (head 5 2) ([0x01; 0xC2; 0x65; 0x0D] ++ cstr "t" ++ [0xC2])) 128
     = first_tags (tti (head 5 2) ([0x01; 0xC2; 0x65; 0x0D] ++ cstr "t" ++ [0xC2]))
       ++ transcoded
            (filter (fun b => 32 <= b)
               (before_end
                  (text_field
                     (tti (head 5 2) ([0x01; 0xC2; 0x65; 0x0D] ++ cstr "t" ++ [0xC2]))
                     128))).
Proof.
  assert (Forall (fun b => b <> 0x8A)
            (before_end
               (text_field
                  (tti (head 5 2) ([0x01; 0xC2; 0x65; 0x0D] ++ cstr "t" ++ [0xC2]))
                  128))) as H
    by (vm_compute; repeat constructor; discriminate).
  split; [exact H|].
  apply (single_line_markup
           (tti (head 5 2) ([0x01; 0xC2; 0x65; 0x0D] ++ cstr "t" ++ [0xC2])) 128 H).
Defined.

(** X15.  No byte of the markup is below 0x20, whatever the block holds:
    control bytes of the text field never reach the markup. *)
Theorem markup_has_no_control_byte (tti_block : list Z) (tti_block_size : Z) :
  Forall (fun b => 32 <= b)
    (extract_text_and_colors_from_tti_block tti_block tti_block_size).
Proof.
  rewrite extract_text_render. apply Forall_app. split.
  - unfold first_tags.
    pose proof (extract_colors_in_range tti_block 0) as [Ht Hb].
    destruct (extract_colors_from_tti tti_block 0) as [tc bc].
    cbn [fst snd] in *. apply Forall_app. split.
    + apply (tags_printable tc Ht).
    + apply (tags_printable bc Hb).
  - apply render_printable. constructor.
Qed.

(** X16.  The text of a cue depends on bytes 13 to 127 of its block only:
    two blocks that agree there give the same markup and the same text for
    the sink, whatever their first 13 bytes (the timecodes among them)
    are. *)
Theorem cue_text_ignores_first_13_bytes (block block' : list Z) :
  take 115 (drop 13 block) = take 115 (drop 13 block') ->
  extract_text_and_colors_from_tti_block block 128
  = extract_text_and_colors_from_tti_block block' 128
  /\ block_text block = block_text block'.
Proof.
  intros H.
  assert (forall i, (13 <= i < 128)%nat -> byte_at block i = byte_at block' i)
    as Hbytes.
  { intros i Hi. unfold byte_at. rewrite !nth_lookup. f_equal.
    assert (forall l : list Z, l !! i = take 115 (drop 13 l) !! (i - 13)%nat) as E.
    { intros l. rewrite lookup_take_lt by lia. rewrite lookup_drop.
      f_equal. lia. }
    rewrite (E block), (E block'), H. reflexivity. }
  assert (forall lc, extract_colors_from_tti block lc
                     = extract_colors_from_tti block' lc) as Hcolors.
  { intros lc. apply extract_colors_local. intros i Hi. apply Hbytes. lia. }
  assert (extract_text_and_colors_from_tti_block block 128
          = extract_text_and_colors_from_tti_block block' 128) as Hmarkup.
  { rewrite !extract_text_render. unfold first_tags, text_field.
    rewrite (Hcolors 0), (render_ext block block' Hcolors).
    f_equal. f_equal. apply list_fmap_ext. intros k i Hi.
    apply Hbytes. apply list_elem_of_lookup_2 in Hi.
    apply list_elem_of_In in Hi. unfold text_scan_offsets in Hi.
    apply in_seq in Hi. unfold text_field_offset in Hi. lia. }
  split; [exact Hmarkup|].
  unfold block_text. change Avcodec.TTI_BLOCK_SIZE with 128.
  rewrite Hmarkup, (Hbytes 13%nat), (Hbytes 14%nat) by lia. reflexivity.
Qed.

Lemma cue_text_ignores_first_13_bytes_witness :
  take 115 (drop 13 block_hi)
  = take 115 (drop 13 ([1; 0; 7; 255; 0; 10; 0; 5; 0; 10; 0; 7; 0]
                       ++ drop 13 block_hi))
  /\ (extract_text_and_colors_from_tti_block block_hi 128
      = extract_text_and_colors_from_tti_block
          ([1; 0; 7; 255; 0; 10; 0; 5; 0; 10; 0; 7; 0] ++ drop 13 block_hi) 128
      /\ block_text block_hi
         = block_text ([1; 0; 7; 255; 0; 10; 0; 5; 0; 10; 0; 7; 0]
                       ++ drop 13 block_hi)).
Proof.
  split; [reflexivity|].
  apply (cue_text_ignores_first_13_bytes block_hi
           ([1; 0; 7; 255; 0; 10; 0; 5; 0; 10; 0; 7; 0] ++ drop 13 block_hi)).
  reflexivity.
Defined.

Lemma extract_text_from_start (tti_block : list Z) (tti_block_size : Z) :
  extract_text_and_colors_from_tti_block tti_block tti_block_size
  = ass_string
      (append_line
         (for_each (text_scan_offsets tti_block_size)
            (extract_text_body tti_block)
            (text_scan_start tti_block tti_block_size))).
Proof.
  unfold extract_text_and_colors_from_tti_block, text_scan_start.
  destruct (extract_colors_from_tti tti_block 0) as [tc bc]. reflexivity.
Qed.

Lemma extract_text_body_growth (tti_block : list Z) (i : nat) (st : text_scan) :
  match extract_text_body tti_block i st with
  | Continue st' | Break st' =>
      (text_len st' <= S (text_len st))%nat
      /\ length (line st') = length (line st)
  end.
Proof.
  unfold extract_text_body.
  destruct (byte_at tti_block i =? 0x8A).
  - destruct (extract_colors_from_tti _ _) as [tc bc].
    cbn [text_len line]. unfold append_line. cbn [line].
    rewrite length_insert. split; [lia|reflexivity].
  - destruct (byte_at tti_block i =? 0x8F); [split; [lia|reflexivity]|].
    destruct (byte_at tti_block i >=? 32); [|split; [lia|reflexivity]].
    cbn [text_len line]. rewrite length_insert. split; [lia|reflexivity].
Qed.

Lemma text_scan_line_growth (tti_block : list Z) :
  forall (indices : list nat) (st : text_scan),
    (text_len (for_each indices (extract_text_body tti_block) st)
     <= text_len st + length indices)%nat
    /\ length (line (for_each indices (extract_text_body tti_block) st))
       = length (line st).
Proof.
  induction indices as [|i indices IH]; intros st; [cbn; lia|].
  cbn [for_each length].
  pose proof (extract_text_body_growth tti_block i st) as Hstep.
  destruct (extract_text_body tti_block i st) as [st'|st'].
  - destruct Hstep as [Hlen Hline]. destruct (IH st') as [Hlen' Hline'].
    split; [lia|]. rewrite Hline'. exact Hline.
  - destruct Hstep as [Hlen Hline]. split; [lia|exact Hline].
Qed.

(** X17.  The line buffer never overflows: for a block size of at least 1,
    the markup is computed by the text scan from its start state, and
    after any number [k] of iterations of that scan the buffer still
    has its [2 * size] bytes and holds at most [k] of them, at most
    [size - 13] in all, so the index of the next byte stored and of the
    terminator is inside the buffer. *)
Theorem line_buffer_never_overflows (tti_block : list Z) (tti_block_size : Z)
    (k : nat) :
  1 <= tti_block_size ->
  extract_text_and_colors_from_tti_block tti_block tti_block_size
  = ass_string
      (append_line
         (for_each (text_scan_offsets tti_block_size)
            (extract_text_body tti_block)
            (text_scan_start tti_block tti_block_size)))
  /\ length (line (for_each (take k (text_scan_offsets tti_block_size))
                  (extract_text_body tti_block)
                  (text_scan_start tti_block tti_block_size)))
  = Z.to_nat (tti_block_size * 2)
  /\ (text_len (for_each (take k (text_scan_offsets tti_block_size))
                  (extract_text_body tti_block)
                  (text_scan_start tti_block tti_block_size))
      <= Nat.min k (Z.to_nat tti_block_size - 13))%nat
  /\ (text_len (for_each (take k (text_scan_offsets tti_block_size))
                  (extract_text_body tti_block)
                  (text_scan_start tti_block tti_block_size))
      < Z.to_nat (tti_block_size * 2))%nat.
Proof.
  intros Hsize. split; [apply extract_text_from_start|].
  destruct (text_scan_line_growth tti_block
              (take k (text_scan_offsets tti_block_size))
              (text_scan_start tti_block tti_block_size)) as [Hlen Hline].
  assert (length (line (text_scan_start tti_block tti_block_size))
          = Z.to_nat (tti_block_size * 2)) as Hstart.
  { unfold text_scan_start.
    destruct (extract_colors_from_tti tti_block 0). cbn [line].
    apply length_replicate. }
  assert (text_len (text_scan_start tti_block tti_block_size) = 0%nat) as H0.
  { unfold text_scan_start.
    destruct (extract_colors_from_tti tti_block 0). reflexivity. }
  assert (length (text_scan_offsets tti_block_size)
          = (Z.to_nat tti_block_size - 13)%nat) as Hoffsets
    by (unfold text_scan_offsets; apply length_seq).
  rewrite H0, length_take, Hoffsets in Hlen.
  rewrite Hline, Hstart. split; [reflexivity|]. split; lia.
Qed.

Lemma line_buffer_never_overflows_witness :
  1 <= 128 /\
  (extract_text_and_colors_from_tti_block block_red_second_line 128
   = ass_string
       (append_line
          (for_each (text_scan_offsets 128)
             (extract_text_body block_red_second_line)
             (text_scan_start block_red_second_line 128)))
   /\ length (line (for_each (take 40 (text_scan_offsets 128))
                   (extract_text_body block_red_second_line)
                   (text_scan_start block_red_second_line 128)))
   = Z.to_nat (128 * 2)
   /\ (text_len (for_each (take 40 (text_scan_offsets 128))
                   (extract_text_body block_red_second_line)
                   (text_scan_start block_red_second_line 128))
       <= Nat.min 40 (Z.to_nat 128 - 13))%nat
   /\ (text_len (for_each (take 40 (text_scan_offsets 128))
                   (extract_text_body block_red_second_line)
                   (text_scan_start block_red_second_line 128))
       < Z.to_nat (128 * 2))%nat).
Proof.
  split; [lia|].
  apply (line_buffer_never_overflows block_red_second_line 128 40). lia.
Defined.

(** ** Reading packets *)

Lemma byte_at_uint8 (l : list Z) (i : nat) :
  Forall is_uint8 l -> is_uint8 (byte_at l i).
Proof.
  intros H. unfold byte_at. destruct (nth_lookup_or_length l i 0) as [E|E].
  - eapply Forall_lookup_1; [exact H|exact E].
  - rewrite nth_overflow by lia. unfold is_uint8. lia.
Qed.

(** The conversion reads the four bytes at the pointer only. *)
Lemma timestamp_at (l : list Z) (k : nat) :
  ebustl_timestamp_to_pts (drop k l)
  = ebustl_timestamp_to_pts
      [byte_at l k; byte_at l (k + 1); byte_at l (k + 2); byte_at l (k + 3)].
Proof.
  assert (forall i, byte_at (drop k l) i = byte_at l (k + i)) as E.
  { intros i. unfold byte_at. rewrite !nth_lookup, lookup_drop. reflexivity. }
  unfold ebustl_timestamp_to_pts. rewrite !E.
  replace (k + 0)%nat with k by lia. reflexivity.
Qed.

Lemma pts_range (h m s f : Z) :
  is_uint8 h -> is_uint8 m -> is_uint8 s -> is_uint8 f ->
  - 36000000 <= Spec.milliseconds h m s f <= 897765200.
Proof. unfold is_uint8, Spec.milliseconds. lia. Qed.

Lemma fill_packet_timing (bytes : list Z) :
  Forall is_uint8 bytes ->
  pts (fill_packet bytes)
  = Spec.milliseconds (byte_at bytes 5) (byte_at bytes 6) (byte_at bytes 7)
      (byte_at bytes 8)
  /\ duration (fill_packet bytes)
     = Spec.milliseconds (byte_at bytes 9) (byte_at bytes 10)
         (byte_at bytes 11) (byte_at bytes 12)
       - Spec.milliseconds (byte_at bytes 5) (byte_at bytes 6)
           (byte_at bytes 7) (byte_at bytes 8).
Proof.
  intros H. unfold fill_packet. cbn [pts duration].
  rewrite !timestamp_at. cbn [Nat.add].
  rewrite !pts_of_bytes by (apply byte_at_uint8, H).
  fold (Spec.milliseconds (byte_at bytes 5) (byte_at bytes 6) (byte_at bytes 7)
          (byte_at bytes 8)).
  fold (Spec.milliseconds (byte_at bytes 9) (byte_at bytes 10)
          (byte_at bytes 11) (byte_at bytes 12)).
  split; [reflexivity|].
  pose proof (pts_range (byte_at bytes 5) (byte_at bytes 6) (byte_at bytes 7)
                (byte_at bytes 8)
                (byte_at_uint8 _ _ H) (byte_at_uint8 _ _ H)
                (byte_at_uint8 _ _ H) (byte_at_uint8 _ _ H)).
  pose proof (pts_range (byte_at bytes 9) (byte_at bytes 10) (byte_at bytes 11)
                (byte_at bytes 12)
                (byte_at_uint8 _ _ H) (byte_at_uint8 _ _ H)
                (byte_at_uint8 _ _ H) (byte_at_uint8 _ _ H)).
  apply wrap_int64_small. lia.
Qed.

Lemma read_packet_full (eof : Z) (pb : AVIOContext) :
  (pos pb + 128 <= length (stream pb))%nat ->
  ebustl_read_packet eof pb
  = (0, Some (fill_packet (take 128 (drop (pos pb) (stream pb)))),
     {| stream := stream pb; pos := pos pb + 128 |}).
Proof.
  intros H. unfold ebustl_read_packet, avio_read.
  change (Z.to_nat Avformat.TTI_BLOCK_SIZE) with 128%nat.
  assert (length (take 128 (drop (pos pb) (stream pb))) = 128%nat) as Hlen
    by (rewrite length_take, length_drop; lia).
  rewrite Hlen. change (Z.of_nat 128 <? Avformat.TTI_BLOCK_SIZE) with false.
  reflexivity.
Qed.

Lemma read_packet_short (eof : Z) (pb : AVIOContext) :
  (length (stream pb) < pos pb + 128)%nat ->
  ebustl_read_packet eof pb
  = (eof, None,
     {| stream := stream pb;
        pos := pos pb + (length (stream pb) - pos pb) |}).
Proof.
  intros H. unfold ebustl_read_packet, avio_read.
  change (Z.to_nat Avformat.TTI_BLOCK_SIZE) with 128%nat.
  assert (length (take 128 (drop (pos pb) (stream pb)))
          = (length (stream pb) - pos pb)%nat) as Hlen
    by (rewrite length_take, length_drop; lia).
  rewrite Hlen. unfold Avformat.TTI_BLOCK_SIZE.
  destruct (Z.ltb_spec (Z.of_nat (length (stream pb) - pos pb)) 128); [|lia].
  reflexivity.
Qed.

(** X18.  When at least 128 bytes are left, a read delivers them as one
    packet and advances by 128: the packet's timestamp is the start
    timecode at bytes 5 to 8 of the block in milliseconds, and its duration
    is the end timecode at bytes 9 to 12 minus the start in milliseconds,
    negative when the end is before the start. *)
Theorem read_packet_delivers_block (eof : Z) (pb : AVIOContext) :
  (pos pb + 128 <= length (stream pb))%nat ->
  Forall is_uint8 (stream pb) ->
  exists pkt,
    ebustl_read_packet eof pb
    = (0, Some pkt, {| stream := stream pb; pos := pos pb + 128 |})
    /\ pkt_data pkt = take 128 (drop (pos pb) (stream pb))
    /\ pkt_size pkt = 128
    /\ pts pkt
       = Spec.milliseconds (byte_at (stream pb) (pos pb + 5))
           (byte_at (stream pb) (pos pb + 6)) (byte_at (stream pb) (pos pb + 7))
           (byte_at (stream pb) (pos pb + 8))
    /\ duration pkt
       = Spec.milliseconds (byte_at (stream pb) (pos pb + 9))
           (byte_at (stream pb) (pos pb + 10))
           (byte_at (stream pb) (pos pb + 11))
           (byte_at (stream pb) (pos pb + 12))
         - pts pkt.
Proof.
  intros Hroom Hbytes. eexists. split; [apply read_packet_full, Hroom|].
  assert (Forall is_uint8 (take 128 (drop (pos pb) (stream pb)))) as Hblock
    by (apply Forall_take, Forall_drop, Hbytes).
  destruct (fill_packet_timing _ Hblock) as [Hpts Hdur].
  assert (forall i, (i < 128)%nat ->
            byte_at (take 128 (drop (pos pb) (stream pb))) i
            = byte_at (stream pb) (pos pb + i)) as E.
  { intros i Hi. unfold byte_at.
    rewrite !nth_lookup, lookup_take_lt, lookup_drop by lia. reflexivity. }
  repeat rewrite E in Hpts by lia. repeat rewrite E in Hdur by lia.
  split; [reflexivity|]. split; [reflexivity|]. split; [exact Hpts|].
  rewrite Hdur, Hpts. reflexivity.
Qed.

Lemma forallb_uint8 (l : list Z) :
  forallb (fun b => (0 <=? b) && (b <? 256)) l = true -> Forall is_uint8 l.
Proof.
  intros H. apply Forall_forall. intros b Hb. apply list_elem_of_In in Hb.
  apply (proj1 (forallb_forall _ l) H) in Hb.
  apply andb_true_iff in Hb as [H0 H1].
  apply Z.leb_le in H0. apply Z.ltb_lt in H1. split; assumption.
Qed.

Lemma short_file_bytes : Forall is_uint8 short_file.
Proof. apply forallb_uint8. vm_compute. reflexivity. Qed.

Lemma read_packet_delivers_block_witness :
  (pos short_file_body + 128 <= length (stream short_file_body))%nat
  /\ Forall is_uint8 (stream short_file_body)
  /\ exists pkt,
       ebustl_read_packet (-1) short_file_body
       = (0, Some pkt,
          {| stream := stream short_file_body;
             pos := pos short_file_body + 128 |})
       /\ pkt_data pkt
          = take 128 (drop (pos short_file_body) (stream short_file_body))
       /\ pkt_size pkt = 128
       /\ pts pkt
          = Spec.milliseconds
              (byte_at (stream short_file_body) (pos short_file_body + 5))
              (byte_at (stream short_file_body) (pos short_file_body + 6))
              (byte_at (stream short_file_body) (pos short_file_body + 7))
              (byte_at (stream short_file_body) (pos short_file_body + 8))
       /\ duration pkt
          = Spec.milliseconds
              (byte_at (stream short_file_body) (pos short_file_body + 9))
              (byte_at (stream short_file_body) (pos short_file_body + 10))
              (byte_at (stream short_file_body) (pos short_file_body + 11))
              (byte_at (stream short_file_body) (pos short_file_body + 12))
            - pts pkt.
Proof.
  split; [vm_compute; lia|]. split; [exact short_file_bytes|].
  apply (read_packet_delivers_block (-1) short_file_body).
  - vm_compute. lia.
  - exact short_file_bytes.
Defined.

(** X19.  A read either delivers a packet and returns 0, or delivers none
    and returns the end-of-file code; the first happens exactly when 128
    bytes or more are left.  Either way the bytes of the stream are not
    changed and the position does not move backwards. *)
Theorem read_packet_block_or_eof (eof : Z) (pb : AVIOContext) :
  eof <> 0 ->
  (fst (fst (ebustl_read_packet eof pb)) = 0
   <-> (pos pb + 128 <= length (stream pb))%nat)
  /\ (is_Some (snd (fst (ebustl_read_packet eof pb)))
      <-> (pos pb + 128 <= length (stream pb))%nat)
  /\ (fst (fst (ebustl_read_packet eof pb)) = 0
      \/ fst (fst (ebustl_read_packet eof pb)) = eof)
  /\ stream (snd (ebustl_read_packet eof pb)) = stream pb
  /\ (pos pb <= pos (snd (ebustl_read_packet eof pb)))%nat.
Proof.
  intros Heof.
  destruct (le_lt_dec (pos pb + 128) (length (stream pb))) as [Hfull|Hshort].
  - rewrite read_packet_full by exact Hfull. cbn [fst snd stream pos].
    repeat split; try tauto; try lia; try (left; reflexivity).
    eexists; reflexivity.
  - rewrite read_packet_short by exact Hshort. cbn [fst snd stream pos].
    repeat split; try tauto; try lia; try (right; reflexivity).
    + intros [x Hx]. discriminate.
Qed.

Lemma read_packet_block_or_eof_witness :
  -541478725 <> 0 /\
  ((fst (fst (ebustl_read_packet (-541478725) short_file_body)) = 0
    <-> (pos short_file_body + 128 <= length (stream short_file_body))%nat)
   /\ (is_Some (snd (fst (ebustl_read_packet (-541478725) short_file_body)))
       <-> (pos short_file_body + 128 <= length (stream short_file_body))%nat)
   /\ (fst (fst (ebustl_read_packet (-541478725) short_file_body)) = 0
       \/ fst (fst (ebustl_read_packet (-541478725) short_file_body))
          = -541478725)
   /\ stream (snd (ebustl_read_packet (-541478725) short_file_body))
      = stream short_file_body
   /\ (pos short_file_body
       <= pos (snd (ebustl_read_packet (-541478725) short_file_body)))%nat).
Proof.
  split; [lia|].
  apply (read_packet_block_or_eof (-541478725) short_file_body). lia.
Defined.

Lemma read_packets_blocks (eof : Z) (n : nat) :
  forall pb : AVIOContext,
    fst (read_packets eof n pb)
    = (fun i => fill_packet (take 128 (drop (pos pb + 128 * i) (stream pb))))
        <$> seq 0 (Nat.min n ((length (stream pb) - pos pb) / 128)).
Proof.
  induction n as [|n IH]; intros pb; [reflexivity|].
  cbn [read_packets].
  destruct (le_lt_dec (pos pb + 128) (length (stream pb))) as [Hfull|Hshort].
  - rewrite read_packet_full by exact Hfull.
    specialize (IH {| stream := stream pb; pos := pos pb + 128 |}).
    destruct (read_packets eof n {| stream := stream pb; pos := pos pb + 128 |})
      as [pkts pb''].
    cbn [fst stream pos] in *. rewrite IH.
    assert ((length (stream pb) - pos pb) / 128
            = S ((length (stream pb) - (pos pb + 128)) / 128))%nat as Hk.
    { replace (length (stream pb) - pos pb)%nat
        with (1 * 128 + (length (stream pb) - (pos pb + 128)))%nat by lia.
      rewrite Nat.div_add_l by lia. lia. }
    rewrite Hk. rewrite <- Nat.succ_min_distr.
    rewrite <- cons_seq, fmap_cons. f_equal.
    + replace (pos pb + 128 * 0)%nat with (pos pb) by lia. reflexivity.
    + rewrite <- fmap_S_seq, <- list_fmap_compose.
      apply list_fmap_ext. intros _ i _. unfold compose.
      replace (pos pb + 128 + 128 * i)%nat with (pos pb + 128 * S i)%nat by lia.
      reflexivity.
  - rewrite read_packet_short by exact Hshort. cbn [fst].
    rewrite Nat.div_small by lia. rewrite Nat.min_0_r. reflexivity.
Qed.

(** X20.  After the header is read, successive reads deliver the full
    128-byte blocks that follow the 1024-byte header, in file order and
    nothing else: [n] reads deliver the first [n] of them, or all of them
    when the file has fewer; a last block of fewer than 128 bytes is never
    delivered. *)
Theorem demux_delivers_full_blocks (eof media codec : Z) (file : list Z)
    (n : nat) :
  fst (read_packets eof n
         (snd (ebustl_read_header media codec {| stream := file; pos := 0 |})))
  = (fun i => fill_packet (take 128 (drop (1024 + 128 * i) file)))
      <$> seq 0 (Nat.min n ((length file - 1024) / 128)).
Proof.
  unfold ebustl_read_header, avio_seek. cbn [snd stream].
  rewrite read_packets_blocks. cbn [stream pos].
  change (Z.to_nat EBU_HEADER_SIZE) with 1024%nat. reflexivity.
Qed.

(** X21.  A packet read from the stream decodes to exactly one cue: with
    128 bytes or more left, the read delivers a packet on which the decoder
    hands the text of that block to the sink with the current read order,
    and advances the read order by one. *)
Theorem read_then_decode_one_cue (eof r : Z) (pb : AVIOContext) :
  (pos pb + 128 <= length (stream pb))%nat ->
  - 2 ^ 31 <= r -> r + 1 < 2 ^ 31 ->
  exists pkt pb',
    ebustl_read_packet eof pb = (0, Some pkt, pb')
    /\ ebustl_decode_frame r {| data := pkt_data pkt; data_size := pkt_size pkt |}
       = Some {| rects :=
                   [(block_text (take 128 (drop (pos pb) (stream pb))), r)];
                 readorder := r + 1;
                 got_sub_ptr := 1 |}.
Proof.
  intros Hroom Hlo Hhi. eexists. eexists.
  split; [apply read_packet_full, Hroom|].
  unfold fill_packet. cbn [pkt_data pkt_size].
  change Avformat.TTI_BLOCK_SIZE with 128.
  rewrite decode_frame_one_block, wrap_int_small by lia.
  reflexivity.
Qed.

Lemma read_then_decode_one_cue_witness :
  (pos short_file_body + 128 <= length (stream short_file_body))%nat
  /\ - 2 ^ 31 <= 0 /\ 0 + 1 < 2 ^ 31
  /\ exists pkt pb',
       ebustl_read_packet (-1) short_file_body = (0, Some pkt, pb')
       /\ ebustl_decode_frame 0
            {| data := pkt_data pkt; data_size := pkt_size pkt |}
          = Some {| rects :=
                      [(block_text
                          (take 128 (drop (pos short_file_body)
                                       (stream short_file_body))), 0)];
                    readorder := 0 + 1;
                    got_sub_ptr := 1 |}.
Proof.
  split; [vm_compute; lia|]. split; [lia|]. split; [lia|].
  apply (read_then_decode_one_cue (-1) 0 short_file_body);
    [vm_compute; lia|lia|lia].
Defined.

(** ** Initialisation *)


(** ** The hexadecimal dump *)

Lemma memcpy_lookup (src : list Z) :
  forall (mem : gmap nat Z) (j k : nat),
    memcpy mem j src !! k
    = if decide (j <= k < j + length src)%nat then src !! (k - j)%nat
      else mem !! k.
Proof.
  induction src as [|c src IH]; intros mem j k; cbn [memcpy length].
  - destruct (decide (j <= k < j + 0)%nat); [lia|reflexivity].
  - rewrite IH.
    destruct (decide (S j <= k < S j + length src)%nat) as [Hin|Hout].
    + rewrite decide_True by lia.
      replace (k - j)%nat with (S (k - S j)) by lia. reflexivity.
    + destruct (decide (k = j)) as [->|Hne].
      * rewrite lookup_insert_eq, decide_True by lia.
        replace (j - j)%nat with 0%nat by lia. reflexivity.
      * rewrite lookup_insert_ne by lia. rewrite decide_False by lia.
        reflexivity.
Qed.

Lemma snprintf_02X_dom (mem : gmap nat Z) (j size : nat) (v : Z) (k : nat) :
  k ∈ dom (snprintf_02X mem j size v) ->
  k ∈ dom mem \/ (j <= k <= j + (size - 1))%nat.
Proof.
  unfold snprintf_02X. rewrite !elem_of_dom.
  set (text := take (size - 1) (fmt_02X v ++ cstr " ")).
  assert (length text <= size - 1)%nat as Hlen
    by (unfold text; rewrite length_take; lia).
  destruct (decide (k = j + length text)%nat) as [->|Hne]; [right; lia|].
  rewrite lookup_insert_ne by lia. rewrite memcpy_lookup.
  destruct (decide (j <= k < j + length text)%nat); [right; lia|].
  intros H. left. exact H.
Qed.

Lemma hex_dump_footprint (buf : list Z) (n : nat) :
  forall (start : nat) (mem : gmap nat Z),
    (forall k, k ∈ dom mem -> (k <= 3 * start)%nat) ->
    forall k,
      k ∈ dom (for_each (seq start n)
                 (fun i hex_output =>
                    Continue (snprintf_02X hex_output (i * 3) 4 (byte_at buf i)))
                 mem) ->
      (k <= 3 * (start + n))%nat.
Proof.
  induction n as [|n IH]; intros start mem Hmem k; cbn [seq for_each].
  - intros Hk. specialize (Hmem k Hk). lia.
  - intros Hk. apply IH in Hk; [lia|].
    intros k' Hk'. apply snprintf_02X_dom in Hk' as [Hk'|Hk'].
    + specialize (Hmem k' Hk'). lia.
    + lia.
Qed.

(** X23.  The hexadecimal dump never writes outside its buffer of
    [128 * 3 + 1] bytes, whatever the block holds and whatever size is
    passed. *)
Theorem hex_dump_inside_buffer (buf : list Z) (buf_size : Z) :
  hex_output_size = 385%nat
  /\ within hex_output_size (log_tti_block_hex buf buf_size).
Proof.
  split; [reflexivity|]. intros k Hk. unfold log_tti_block_hex in Hk.
  apply (hex_dump_footprint buf _ 0 ∅) in Hk.
  - change hex_output_size with 385%nat.
    change Avcodec.TTI_BLOCK_SIZE with 128 in Hk. lia.
  - intros k' Hk'. rewrite dom_empty_L in Hk'. set_solver.
Qed.

Lemma hex_digit_nonzero (d : Z) : 0 <= d -> hex_digit d <> 0.
Proof. intros H. unfold hex_digit. destruct (d <? 10); lia. Qed.

Lemma fmt_02X_byte (b : Z) :
  is_uint8 b -> fmt_02X b = [hex_digit (b / 16); hex_digit (b mod 16)].
Proof.
  unfold is_uint8. intros Hb. unfold fmt_02X.
  rewrite (Z.mod_small b (2 ^ 32)) by lia.
  assert (0 <= b / 16 < 16) as Hq
    by (split; [apply Z.div_pos; lia|apply Z.div_lt_upper_bound; lia]).
  cbn [hex_digits].
  destruct (Z.eqb_spec (b / 16) 0) as [E|E].
  - rewrite E. reflexivity.
  - rewrite (Z.div_small (b / 16) 16) by lia. cbn [Z.eqb].
    rewrite (Z.mod_small (b / 16) 16) by lia. reflexivity.
Qed.

Lemma memcpy_over_tail (acc z src : list Z) :
  (length z <= length src)%nat ->
  memcpy (map_seq 0 (acc ++ z)) (length acc) src = map_seq 0 (acc ++ src).
Proof.
  intros Hz. apply map_eq. intros k.
  rewrite memcpy_lookup, !lookup_map_seq_0.
  destruct (decide (length acc <= k < length acc + length src)%nat) as [Hin|Hout].
  - rewrite lookup_app_r by lia. reflexivity.
  - destruct (decide (k < length acc)%nat).
    + rewrite !lookup_app_l by lia. reflexivity.
    + rewrite !lookup_ge_None_2 by (rewrite length_app; lia). reflexivity.
Qed.

Lemma hex_dump_contents (buf : list Z) (n : nat) :
  forall (start : nat) (acc z : list Z),
    Forall is_uint8 buf -> (start + n <= length buf)%nat ->
    length acc = (3 * start)%nat -> (length z <= 1)%nat ->
    (1 <= n)%nat ->
    for_each (seq start n)
      (fun i hex_output =>
         Continue (snprintf_02X hex_output (i * 3) 4 (byte_at buf i)))
      (map_seq 0 (acc ++ z))
    = map_seq 0
        (acc
         ++ concat ((fun b => [hex_digit (b / 16); hex_digit (b mod 16); 32])
                      <$> take n (drop start buf))
         ++ [0]).
Proof.
  induction n as [|n IH]; intros start acc z Hbuf Hlen Hacc Hz Hn; [lia|].
  cbn [seq for_each].
  destruct (lookup_lt_is_Some_2 buf start ltac:(lia)) as [b Hb].
  assert (byte_at buf start = b) as Hbyte
    by (unfold byte_at; rewrite nth_lookup, Hb; reflexivity).
  assert (is_uint8 b) as Hu by (eapply Forall_lookup_1; eassumption).
  assert (snprintf_02X (map_seq 0 (acc ++ z)) (start * 3) 4 (byte_at buf start)
          = map_seq 0 ((acc ++ [hex_digit (b / 16); hex_digit (b mod 16); 32])
                       ++ [0])) as Hstep.
  { unfold snprintf_02X. rewrite Hbyte, fmt_02X_byte by exact Hu.
    cbn [app take cstr byte_of_ascii length]. change (4 - 1)%nat with 3%nat.
    cbn [take]. change (Z.of_N (N_of_ascii " ")) with 32.
    replace (start * 3)%nat with (length acc) by lia.
    rewrite memcpy_over_tail by (cbn [length]; lia).
    rewrite map_seq_snoc. f_equal. rewrite length_app. cbn [length]. lia. }
  rewrite Hstep.
  rewrite (drop_S buf b start Hb). cbn [take fmap list_fmap concat].
  destruct n as [|n'].
  - cbn [seq for_each take drop fmap list_fmap concat].
    rewrite take_0. cbn [fmap list_fmap concat app].
    rewrite <- !app_assoc. reflexivity.
  - rewrite (IH (S start) (acc ++ [hex_digit (b / 16); hex_digit (b mod 16); 32])
               [0]); try assumption; try lia.
    + rewrite <- !app_assoc. reflexivity.
    + rewrite length_app. cbn [length]. lia.
    + cbn [length]. lia.
Qed.

(** X24.  For a block of bytes and a size of at least 1 that does not
    exceed the block, the string the dump leaves in its buffer is, for
    each of the first [min(128, size)] bytes in order, its two upper-case
    hexadecimal digits and a space. *)
Theorem hex_dump_string (buf : list Z) (buf_size : Z) :
  Forall is_uint8 buf -> 1 <= buf_size ->
  (Z.to_nat (Z.min 128 buf_size) <= length buf)%nat ->
  c_string (log_tti_block_hex buf buf_size)
  = concat ((fun b => [hex_digit (b / 16); hex_digit (b mod 16); 32])
              <$> take (Z.to_nat (Z.min 128 buf_size)) buf).
Proof.
  intros Hbuf Hsize Hlen. unfold log_tti_block_hex.
  change Avcodec.TTI_BLOCK_SIZE with 128.
  change (∅ : gmap nat Z) with (map_seq 0 (@nil Z ++ @nil Z) : gmap nat Z).
  rewrite (hex_dump_contents buf _ 0 [] []); cbn [length]; try assumption;
    try lia.
  cbn [app]. rewrite drop_0. apply c_string_map_seq.
  apply Forall_concat, Forall_fmap, Forall_forall. intros b Hb. cbn.
  assert (is_uint8 b) as Hu.
  { pose proof (Forall_take _ (Z.to_nat (Z.min 128 buf_size)) buf Hbuf) as Ht.
    rewrite Forall_forall in Ht. apply Ht, Hb. }
  unfold is_uint8 in Hu.
  repeat constructor.
  - apply hex_digit_nonzero, Z.div_pos; lia.
  - apply hex_digit_nonzero. apply Z.mod_pos_bound. lia.
  - lia.
Qed.

Lemma hex_dump_string_witness :
  Forall is_uint8 timed_block /\ 1 <= 128
  /\ (Z.to_nat (Z.min 128 128) <= length timed_block)%nat
  /\ c_string (log_tti_block_hex timed_block 128)
     = concat ((fun b => [hex_digit (b / 16); hex_digit (b mod 16); 32])
                 <$> take (Z.to_nat (Z.min 128 128)) timed_block).
Proof.
  assert (Forall is_uint8 timed_block) as H
    by (apply forallb_uint8; vm_compute; reflexivity).
  split; [exact H|]. split; [lia|]. split; [vm_compute; lia|].
  apply (hex_dump_string timed_block 128 H); [lia|vm_compute; lia].
Defined.
